(** * Editor: property-inspector glue and asset move handlers

    Shallow embedding of
    - src/renderer/editor/components/assets-browser/files/move/video.ts
    - src/renderer/editor/inspectors/script-inspector.tsx
    - src/editor/tools/default-scene.ts
    together with the pieces of Node's [path] module and of JavaScript's
    [String.prototype] that these files call. *)

From Stdlib Require Import String Ascii ZArith.
From stdpp Require Import base list gmap strings.

Local Open Scope nat_scope.
Local Set Warnings "-register-all".

(* ------------------------------------------------------------------ *)
(** ** JavaScript strings *)

Module Js.

(** [s.indexOf(pat)]: first position of [pat] in [s]. *)
Definition indexOf (s pat : string) : option nat := String.index 0 pat s.

(** [s.replace(pat, rep)] with a string pattern: only the first occurrence
    of [pat] is replaced; [s] is returned unchanged when [pat] does not
    occur. *)
Definition replace (s pat rep : string) : string :=
  match indexOf s pat with
  | None => s
  | Some i =>
      String.append (String.substring 0 i s)
        (String.append rep
           (String.substring (i + String.length pat)
              (String.length s - (i + String.length pat)) s))
  end.

(** [s.lastIndexOf(pat)]: last position of [pat] in [s], [None] for -1. *)
Fixpoint lastIndexOf_from (i : nat) (s pat : string) : option nat :=
  match s with
  | EmptyString => if String.prefix pat s then Some i else None
  | String _ s' =>
      match lastIndexOf_from (S i) s' pat with
      | Some j => Some j
      | None => if String.prefix pat s then Some i else None
      end
  end.

Definition lastIndexOf (s pat : string) : option nat := lastIndexOf_from 0 s pat.

(** [s.substr(0, n)]. *)
Definition substr0 (s : string) (n : nat) : string := String.substring 0 n s.

End Js.

(* ------------------------------------------------------------------ *)
(** ** Node's [path] module (posix) *)

Module Path.

Definition slash : ascii := "/"%char.

(** The segments of a path between separators. *)
Fixpoint split_sep (s : string) : list string :=
  match s with
  | EmptyString => [EmptyString]
  | String c s' =>
      if Ascii.eqb c slash then EmptyString :: split_sep s'
      else match split_sep s' with
           | [] => [String c EmptyString]
           | x :: r => String c x :: r
           end
  end.

(** One step of [normalizeString] on a segment; the result is kept
    reversed (last segment first). *)
Definition push_segment (allowAboveRoot : bool) (acc : list string)
    (seg : string) : list string :=
  if String.eqb seg "" then acc
  else if String.eqb seg "." then acc
  else if String.eqb seg ".." then
    match acc with
    | x :: r => if String.eqb x ".." then
                  (if allowAboveRoot then ".." :: acc else acc)
                else r
    | [] => if allowAboveRoot then [".."%string] else []
    end
  else seg :: acc.

Definition normalizeString (s : string) (allowAboveRoot : bool) : string :=
  String.concat "/"
    (rev (fold_left (push_segment allowAboveRoot) (split_sep s) [])).

Definition first_char (s : string) : option ascii :=
  match s with EmptyString => None | String c _ => Some c end.

Fixpoint last_char (s : string) : option ascii :=
  match s with
  | EmptyString => None
  | String c EmptyString => Some c
  | String _ s' => last_char s'
  end.

Definition is_slash (c : option ascii) : bool :=
  match c with Some c => Ascii.eqb c slash | None => false end.

(** [path.normalize]. *)
Definition normalize (p : string) : string :=
  if String.eqb p "" then "."
  else
    let isAbsolute := is_slash (first_char p) in
    let trailingSeparator := is_slash (last_char p) in
    let r := normalizeString p (negb isAbsolute) in
    if String.eqb r "" then
      (if isAbsolute then "/" else if trailingSeparator then "./" else ".")
    else
      let r := if trailingSeparator then String.append r "/" else r in
      if isAbsolute then String.append "/" r else r.

(** [path.join(...args)]: empty arguments are dropped, the others are
    joined with "/" and the result normalized. *)
Definition join (args : list string) : string :=
  match List.filter (fun a => negb (String.eqb a "")) args with
  | [] => "."
  | joined => normalize (String.concat "/" joined)
  end.

(** [path.basename] without a suffix argument (trailing separators are
    ignored). *)
Definition basename (p : string) : string :=
  default "" (last (List.filter (fun a => negb (String.eqb a "")) (split_sep p))).

(** [path.extname]: from the last "." of the base name, or "" when there
    is none, when it is the first character, or for "..". *)
Definition extname (p : string) : string :=
  let b := basename p in
  if String.eqb b ".." then ""
  else match Js.lastIndexOf b "." with
       | None | Some 0 => ""
       | Some i => String.substring i (String.length b - i) b
       end.

End Path.

(* ------------------------------------------------------------------ *)
(** ** assets-browser/files/move/video.ts *)

Module VideoMove.

(** Thrown JavaScript errors (a member access on [null]). *)
Inductive js_error := TypeError.

(** The outcome of an [async] method: resolved with a value or rejected. *)
Inductive js_result (A : Type) :=
| Ok (a : A)
| Throw (e : js_error).
Arguments Ok {A} a.
Arguments Throw {A} e.

(** [t instanceof VideoTexture]. *)
Inductive texture_class := VideoTexture | OtherTexture.

Record texture := mk_texture {
  tex_class : texture_class;
  name : string;
}.

Definition is_video (t : texture) : bool :=
  match tex_class t with VideoTexture => true | OtherTexture => false end.

Definition set_name (t : texture) (n : string) : texture :=
  mk_texture (tex_class t) n.

(** Texture objects live in a heap indexed by object identity; the scene's
    [textures] array holds references, so one texture may be listed twice. *)
Definition heap := nat -> texture.

Definition heap_set (h : heap) (i : nat) (t : texture) : heap :=
  fun j => if Nat.eqb j i then t else h j.

Record scene := mk_scene { textures : list nat }.

(** The parts of [Editor] the handler reads: [editor.scene] (nullable) and
    [editor.assetsBrowser.assetsDirectory]; the texture heap is the state
    the handler mutates. *)
Record editor := mk_editor {
  ed_scene : option scene;
  assetsDirectory : string;
  ed_heap : heap;
}.

Definition set_heap (ed : editor) (h : heap) : editor :=
  mk_editor (ed_scene ed) (assetsDirectory ed) h.

(** [join(this._editor.assetsBrowser.assetsDirectory, "/")]. *)
Definition assets_prefix (ed : editor) : string :=
  Path.join [assetsDirectory ed; "/"].

(** [isFileUsed(path)]: [path.replace(...)] runs first, then
    [this._editor.scene!.textures] is read, which throws on [null]. *)
Definition isFileUsed (ed : editor) (path : string) : js_result bool :=
  let relativePath := Js.replace path (assets_prefix ed) "" in
  match ed_scene ed with
  | None => Throw TypeError
  | Some sc =>
      Ok (match find (fun t => is_video (ed_heap ed t)
                               && String.eqb (name (ed_heap ed t)) relativePath)
                  (textures sc) with
          | Some _ => true
          | None => false
          end)
  end.

(** The body of the [forEach] callback of [moveFile]. *)
Definition move_one (dir from to : string) (h : heap) (tex : nat) : heap :=
  let path := Path.join [dir; name (h tex)] in
  if String.eqb path from then
    heap_set h tex (set_name (h tex) (Js.replace to (Path.join [dir; "/"]) ""))
  else h.

(** [moveFile(from, to)]: filter the video textures, then rename in place
    those whose joined path is [from]. *)
Definition moveFile (ed : editor) (from to : string) : js_result editor :=
  match ed_scene ed with
  | None => Throw TypeError
  | Some sc =>
      let texs := List.filter (fun t => is_video (ed_heap ed t)) (textures sc) in
      Ok (set_heap ed
            (fold_left (move_one (assetsDirectory ed) from to) texs (ed_heap ed)))
  end.

(** Claim-side reading of "with the assets-directory prefix removed": drop
    [pre] when [s] starts with it. *)
Definition strip_prefix (pre s : string) : string :=
  if String.prefix pre s
  then String.substring (String.length pre) (String.length s - String.length pre) s
  else s.

End VideoMove.

(* ------------------------------------------------------------------ *)
(** ** script-inspector.tsx: exported values ([_getInspectorValues]) *)

Module ExportedValues.

(** JavaScript values as they reach the inspector (metadata and the
    sandbox's answers are plain data). Numbers are only copied or set to
    the literals 0 and 1 here, so integers represent them. *)
Inductive jsval :=
| JUndefined
| JNull
| JNumber (n : Z)
| JString (s : string)
| JBool (b : bool)
| JObject (fields : list (string * jsval)).

Definition nullish (v : jsval) : bool :=
  match v with JUndefined | JNull => true | _ => false end.

(** [a ?? b]. *)
Definition coalesce (a b : jsval) : jsval := if nullish a then b else a.

(** [if (v)]. *)
Definition truthy (v : jsval) : bool :=
  match v with
  | JUndefined | JNull => false
  | JNumber n => negb (Z.eqb n 0)
  | JString s => negb (String.eqb s "")
  | JBool b => b
  | JObject _ => true
  end.

Fixpoint get_field (fs : list (string * jsval)) (k : string) : jsval :=
  match fs with
  | [] => JUndefined
  | (k', v) :: r => if String.eqb k' k then v else get_field r k
  end.

Fixpoint set_field (fs : list (string * jsval)) (k : string) (v : jsval)
    : list (string * jsval) :=
  match fs with
  | [] => [(k, v)]
  | (k', v') :: r => if String.eqb k' k then (k', v) :: r
                     else (k', v') :: set_field r k v
  end.

(** [v.k] on a value already known to be truthy. *)
Definition member (v : jsval) (k : string) : jsval :=
  match v with JObject fs => get_field fs k | _ => JUndefined end.

(** [IExportedInspectorValue["type"]]. *)
Inductive value_type :=
| TNumber | TString | TBoolean | TVector2 | TVector3 | TColor3 | TColor4.

Definition type_name (t : value_type) : string :=
  match t with
  | TNumber => "number" | TString => "string" | TBoolean => "boolean"
  | TVector2 => "Vector2" | TVector3 => "Vector3"
  | TColor3 => "Color3" | TColor4 => "Color4"
  end.

(** [IExportedInspectorValue]: the decorated property as extracted by the
    sandbox. *)
Record inspector_value := mk_iv {
  iv_type : value_type;
  propertyKey : string;
  iv_name : option string;
  defaultValue : jsval;
}.

(** One stored property object [{ type, value }]. *)
Abbreviation property := (list (string * jsval)).

(** [metadata.script.properties]. *)
Abbreviation properties := (gmap string property).

Inductive widget_kind :=
| InspectorNumber | InspectorString | InspectorBoolean
| InspectorVector2 | InspectorVector3 | InspectorColor.

(** A rendered form widget: its kind, label, and the property key whose
    object it edits ([property="value"]). *)
Record widget := mk_widget {
  w_kind : widget_kind;
  w_label : string;
  w_key : string;
}.

Definition num (n : Z) : jsval := JNumber n.

(** The right-hand side of [property.value ??= ...] in each [case], with
    [cur] the current [property.value]. *)
Definition value_rhs (iv : inspector_value) (cur : jsval) : jsval :=
  let d := defaultValue iv in
  match iv_type iv with
  | TNumber => coalesce cur (coalesce d (num 0))
  | TString => coalesce cur (coalesce d (JString ""))
  | TBoolean => coalesce cur (coalesce d (JBool false))
  | TVector2 =>
      if truthy d
      then coalesce cur (JObject [("x", member d "x"); ("y", member d "y")])
      else coalesce cur (JObject [("x", num 0); ("y", num 0)])
  | TVector3 =>
      if truthy d
      then coalesce cur (JObject [("x", member d "_x"); ("y", member d "_y");
                                  ("z", member d "_z")])
      else coalesce cur (JObject [("x", num 0); ("y", num 0); ("z", num 0)])
  | TColor3 | TColor4 =>
      if truthy d
      then coalesce cur (JObject [("r", member d "r"); ("g", member d "g");
                                  ("b", member d "b"); ("a", member d "a")])
      else coalesce cur (JObject [("r", num 0); ("g", num 0); ("b", num 0);
                                  ("a", match iv_type iv with
                                        | TColor4 => num 1
                                        | _ => JUndefined
                                        end)])
  end.

Definition widget_kind_of (t : value_type) : widget_kind :=
  match t with
  | TNumber => InspectorNumber | TString => InspectorString
  | TBoolean => InspectorBoolean | TVector2 => InspectorVector2
  | TVector3 => InspectorVector3 | TColor3 | TColor4 => InspectorColor
  end.

Definition widget_of (iv : inspector_value) : widget :=
  mk_widget (widget_kind_of (iv_type iv))
    (default (propertyKey iv) (iv_name iv)) (propertyKey iv).

(** The body of the [forEach] callback. *)
Definition render_one (acc : properties * list widget) (iv : inspector_value)
    : properties * list widget :=
  let '(props, children) := acc in
  let k := propertyKey iv in
  let p := default [("type", JString (type_name (iv_type iv)))] (props !! k) in
  let cur := get_field p "value" in
  let p := if nullish cur then set_field p "value" (value_rhs iv cur) else p in
  (<[k := p]> props, children ++ [widget_of iv]).

(** [_getInspectorValues()]: [None] for [undefined]; the properties map is
    [None] while [metadata.script.properties] is not set. *)
Definition getInspectorValues (script_name : string)
    (inspectorValues : list inspector_value) (props : option properties)
    : option (list widget) * option properties :=
  if String.eqb script_name "None" then (None, props)
  else match inspectorValues with
       | [] => (None, props)
       | _ =>
           let props := default ∅ props in
           let '(props, children) :=
             fold_left render_one inspectorValues (props, []) in
           (Some children, Some props)
       end.

(** [property.value] of the stored property at [k]. *)
Definition stored_value (props : properties) (k : string) : jsval :=
  match props !! k with Some p => get_field p "value" | None => JUndefined end.

(** Claim-side reading: the declared default when present, otherwise the
    type's zero (vector and colour defaults are copied component-wise, a
    [Vector3] through the [_x], [_y], [_z] fields it stores). *)
Definition default_or_zero (iv : inspector_value) : jsval :=
  let d := defaultValue iv in
  let present := negb (nullish d) in
  match iv_type iv with
  | TNumber => if present then d else num 0
  | TString => if present then d else JString ""
  | TBoolean => if present then d else JBool false
  | TVector2 => if present then JObject [("x", member d "x"); ("y", member d "y")]
                else JObject [("x", num 0); ("y", num 0)]
  | TVector3 => if present
                then JObject [("x", member d "_x"); ("y", member d "_y");
                              ("z", member d "_z")]
                else JObject [("x", num 0); ("y", num 0); ("z", num 0)]
  | TColor3 => if present
               then JObject [("r", member d "r"); ("g", member d "g");
                             ("b", member d "b"); ("a", member d "a")]
               else JObject [("r", num 0); ("g", num 0); ("b", num 0);
                             ("a", JUndefined)]
  | TColor4 => if present
               then JObject [("r", member d "r"); ("g", member d "g");
                             ("b", member d "b"); ("a", member d "a")]
               else JObject [("r", num 0); ("g", num 0); ("b", num 0);
                             ("a", num 1)]
  end.

(** A declared default of a vector or colour property is an object. *)
Definition default_well_typed (iv : inspector_value) : Prop :=
  match iv_type iv with
  | TVector2 | TVector3 | TColor3 | TColor4 =>
      nullish (defaultValue iv) = true \/ exists fs, defaultValue iv = JObject fs
  | _ => True
  end.

End ExportedValues.

(* ------------------------------------------------------------------ *)
(** ** editor/tools/default-scene.ts: [DefaultScene.CreateLabel] *)

Module DefaultScene.

Inductive control_kind := Rectangle | TextBlock | Line.

(** The container a control was added to: the texture's root container
    ([gui.addControl]) or another control ([container.addControl]). *)
Inductive parent_ref := Root | InControl (p : nat).

(** A GUI control object. Settings that only style the control are kept
    as (property, literal) pairs in [ctl_style]. *)
Record control := mk_control {
  ctl_kind : control_kind;
  ctl_name : option string;
  ctl_text : string;
  ctl_color : string;
  ctl_children : list nat;
  ctl_linked_mesh : option nat;
  ctl_connected : option nat;
  ctl_dash : list Z;
  ctl_style : list (string * string);
  ctl_zIndex : Z;
  ctl_parent : option parent_ref;
}.

(** The [AdvancedDynamicTexture] with the children of its root container,
    and the heap of control objects. *)
Record gui := mk_gui {
  gui_controls : list nat;
  gui_heap : nat -> control;
  gui_next : nat;
}.

(** Code that mutates GUI objects: a state monad over [gui]. *)
Definition M (A : Type) := gui -> A * gui.
Definition ret {A} (a : A) : M A := fun g => (a, g).
Definition bind {A B} (m : M A) (k : A -> M B) : M B :=
  fun g => let '(a, g') := m g in k a g'.
Notation "'let!' x ':=' c 'in' k" := (bind c (fun x => k))
  (at level 200, x name, c at level 100, k at level 200).

(** The heap after the object [c] is replaced by [f] of itself. *)
Definition update_at (c : nat) (f : control -> control) (h : nat -> control)
    : nat -> control :=
  fun j => if Nat.eqb j c then f (h j) else h j.
Arguments update_at : simpl never.

(** Mutating the fields of the object [c]: every other object is read
    unchanged. *)
Definition modify_control (c : nat) (f : control -> control) : M unit :=
  fun '(mk_gui ctrls h nx) => (tt, mk_gui ctrls (update_at c f h) nx).

(** Field updates of a control. *)
Definition with_style (p v : string) (x : control) : control :=
  mk_control (ctl_kind x) (ctl_name x) (ctl_text x) (ctl_color x) (ctl_children x)
    (ctl_linked_mesh x) (ctl_connected x) (ctl_dash x) (ctl_style x ++ [(p, v)])
    (ctl_zIndex x) (ctl_parent x).

Definition with_text (t : string) (x : control) : control :=
  mk_control (ctl_kind x) (ctl_name x) t (ctl_color x) (ctl_children x)
    (ctl_linked_mesh x) (ctl_connected x) (ctl_dash x) (ctl_style x)
    (ctl_zIndex x) (ctl_parent x).

Definition with_color (col : string) (x : control) : control :=
  mk_control (ctl_kind x) (ctl_name x) (ctl_text x) col (ctl_children x)
    (ctl_linked_mesh x) (ctl_connected x) (ctl_dash x) (ctl_style x)
    (ctl_zIndex x) (ctl_parent x).

Definition with_children (cs : list nat) (x : control) : control :=
  mk_control (ctl_kind x) (ctl_name x) (ctl_text x) (ctl_color x) cs
    (ctl_linked_mesh x) (ctl_connected x) (ctl_dash x) (ctl_style x)
    (ctl_zIndex x) (ctl_parent x).

Definition with_linked_mesh (m : option nat) (x : control) : control :=
  mk_control (ctl_kind x) (ctl_name x) (ctl_text x) (ctl_color x) (ctl_children x)
    m (ctl_connected x) (ctl_dash x) (ctl_style x) (ctl_zIndex x) (ctl_parent x).

Definition with_connected (t : option nat) (x : control) : control :=
  mk_control (ctl_kind x) (ctl_name x) (ctl_text x) (ctl_color x) (ctl_children x)
    (ctl_linked_mesh x) t (ctl_dash x) (ctl_style x) (ctl_zIndex x) (ctl_parent x).

Definition with_dash (d : list Z) (x : control) : control :=
  mk_control (ctl_kind x) (ctl_name x) (ctl_text x) (ctl_color x) (ctl_children x)
    (ctl_linked_mesh x) (ctl_connected x) d (ctl_style x) (ctl_zIndex x) (ctl_parent x).

Definition with_zIndex (z : Z) (x : control) : control :=
  mk_control (ctl_kind x) (ctl_name x) (ctl_text x) (ctl_color x) (ctl_children x)
    (ctl_linked_mesh x) (ctl_connected x) (ctl_dash x) (ctl_style x) z (ctl_parent x).

Definition with_parent (p : option parent_ref) (x : control) : control :=
  mk_control (ctl_kind x) (ctl_name x) (ctl_text x) (ctl_color x) (ctl_children x)
    (ctl_linked_mesh x) (ctl_connected x) (ctl_dash x) (ctl_style x) (ctl_zIndex x) p.

(** [new Rectangle(name)], [new TextBlock()], [new Line()]: a fresh
    object at the next free identity, with [zIndex] 0 and no parent. *)
Definition new_control (k : control_kind) (n : option string) : M nat :=
  fun '(mk_gui ctrls h c) =>
    (c, mk_gui ctrls
          (update_at c (fun _ => mk_control k n "" "" [] None None [] [] 0 None) h)
          (S c)).

Definition set_style (c : nat) (p v : string) : M unit := modify_control c (with_style p v).
Definition set_text (c : nat) (t : string) : M unit := modify_control c (with_text t).
Definition set_color (c : nat) (col : string) : M unit := modify_control c (with_color col).
Definition set_dash (c : nat) (d : list Z) : M unit := modify_control c (with_dash d).

(** [line.connectedControl = target]. *)
Definition set_connectedControl (c target : nat) : M unit :=
  modify_control c (with_connected (Some target)).

(** [children.splice(children.indexOf(c), 1)] when [c] is a child. *)
Fixpoint remove_first (c : nat) (l : list nat) : list nat :=
  match l with
  | [] => []
  | x :: r => if Nat.eqb x c then r else x :: remove_first c r
  end.

(** The loop of babylon-gui's [Container._reOrderControl]: [c] goes before
    the first child whose [zIndex] is greater than its own, or is pushed
    at the end. *)
Fixpoint insert_by_zIndex (zOf : nat -> Z) (c : nat) (l : list nat) : list nat :=
  match l with
  | [] => [c]
  | x :: r => if Z.ltb (zOf c) (zOf x) then c :: l else x :: insert_by_zIndex zOf c r
  end.

(** [Container._reOrderControl(c)] on the children list: [removeControl(c)]
    takes it out (babylon-gui, outside this repository), then it is
    inserted by [zIndex]. *)
Definition reorder (h : nat -> control) (c : nat) (l : list nat) : list nat :=
  insert_by_zIndex (fun j => ctl_zIndex (h j)) c (remove_first c l).

(** [gui.addControl(c)]: [AdvancedDynamicTexture.addControl] adds [c] to
    its root container; [Container.addControl] does nothing when [c] is
    already a child, and otherwise reorders it in and sets its parent. *)
Definition gui_addControl (c : nat) : M unit :=
  fun '(mk_gui ctrls h nx) =>
    if existsb (Nat.eqb c) ctrls then (tt, mk_gui ctrls h nx)
    else (tt, mk_gui (reorder h c ctrls) (update_at c (with_parent (Some Root)) h) nx).

(** [container.addControl(child)] on a control [p]. *)
Definition add_child (p child : nat) : M unit :=
  fun '(mk_gui ctrls h nx) =>
    if existsb (Nat.eqb child) (ctl_children (h p)) then (tt, mk_gui ctrls h nx)
    else (tt, mk_gui ctrls
                (update_at child (with_parent (Some (InControl p)))
                   (update_at p (with_children (reorder h child (ctl_children (h p)))) h))
                nx).

(** [c.zIndex = z]: nothing when unchanged; otherwise the field is set and,
    when [c] has a parent, the parent reorders it. *)
Definition set_zIndex (c : nat) (z : Z) : M unit :=
  fun '(mk_gui ctrls h nx) =>
    if Z.eqb (ctl_zIndex (h c)) z then (tt, mk_gui ctrls h nx)
    else
      let h := update_at c (with_zIndex z) h in
      match ctl_parent (h c) with
      | None => (tt, mk_gui ctrls h nx)
      | Some Root => (tt, mk_gui (reorder h c ctrls) h nx)
      | Some (InControl p) =>
          (tt, mk_gui ctrls
                 (update_at p (with_children (reorder h c (ctl_children (h p)))) h) nx)
      end.

(** [c.linkWithMesh(mesh)] with a mesh: babylon-gui only links a control
    of the root container (otherwise it logs an error and returns); an
    already linked control only changes mesh, a newly linked one is first
    aligned left and top. *)
Definition linkWithMesh (c mesh : nat) : M unit :=
  fun g =>
    match ctl_parent (gui_heap g c) with
    | Some Root =>
        match ctl_linked_mesh (gui_heap g c) with
        | Some _ => modify_control c (with_linked_mesh (Some mesh)) g
        | None =>
            (let! _ := set_style c "horizontalAlignment" "HORIZONTAL_ALIGNMENT_LEFT" in
             let! _ := set_style c "verticalAlignment" "VERTICAL_ALIGNMENT_TOP" in
             modify_control c (with_linked_mesh (Some mesh))) g
        end
    | _ => (tt, g)
    end.

Definition CreateLabel (mesh : nat) (str : string) (lines : bool)
    (width height : string) : M nat :=
  let! label := new_control Rectangle (Some str) in
  let! _ := set_style label "background" "black" in
  let! _ := set_style label "height" height in
  let! _ := set_style label "alpha" "0.5" in
  let! _ := set_style label "width" width in
  let! _ := set_style label "cornerRadius" "20" in
  let! _ := set_style label "thickness" "1" in
  let! _ := set_style label "linkOffsetY" "30" in
  let! _ := set_style label "top" "0%" in
  let! _ := set_zIndex label 5 in
  let! _ := set_style label "verticalAlignment" "VERTICAL_ALIGNMENT_TOP" in
  let! _ := set_style label "horizontalAlignment" "HORIZONTAL_ALIGNMENT_RIGHT" in
  let! _ := gui_addControl label in
  let! text := new_control TextBlock None in
  let! _ := set_text text str in
  let! _ := set_color text "white" in
  let! _ := add_child label text in
  if negb lines then
    let! _ := linkWithMesh label mesh in
    ret label
  else
    let! line := new_control Line None in
    let! _ := set_style line "alpha" "0.5" in
    let! _ := set_style line "lineWidth" "5" in
    let! _ := set_dash line [5; 10]%Z in
    let! _ := gui_addControl line in
    let! _ := linkWithMesh line mesh in
    let! _ := set_connectedControl line label in
    ret label.

(** A texture whose root holds one control, of [zIndex] 7. *)
Definition gui0 : gui :=
  mk_gui [0] (fun _ => mk_control Rectangle None "" "" [] None None [] [] 7 (Some Root)) 1.

End DefaultScene.

(* ------------------------------------------------------------------ *)
(** ** script-inspector.tsx: refreshing the visible properties

    [_updateScriptVisibleProperties] and [_refreshDecorators] are [async]:
    each [await] is a point where other handlers may run. A refresh is a
    process with a resume point ([pc]) and the list of effects it has
    performed; a schedule of [action]s interleaves processes with the
    events the component receives (file-system events, unmounting). *)

Module ScriptRefresh.
Import ExportedValues.

(** TypeScript's [transpile] options used by the inspector. *)
Inductive module_kind := ModuleNone | ModuleCommonJS | ModuleES2015.
Inductive script_target := ES3 | ES5 | ES2015.

Record ts_options := mk_ts_options {
  module : module_kind;
  target : script_target;
  experimentalDecorators : bool;
}.

(** The output of [transpile(source, options)]; TypeScript is outside this
    repository, so its result is kept symbolic. *)
Inductive js_code := Transpiled (source : string) (opts : ts_options).

(** What the refresh does not control: the application and workspace
    paths, the content of the decorators file, and what
    [SandboxMain.GetInspectorValues] answers for a compiled file. *)
Record env := mk_env {
  app_path : string;          (* Tools.GetAppPath() *)
  dir_path : string;          (* WorkSpace.DirPath! *)
  decorators_source : string; (* content of assets/scripts/decorators.ts *)
  sandbox : string -> option (list inspector_value);
}.

(** Effects of a refresh, in the order it performs them. *)
Inductive event :=
| EvForceUpdate
| EvSetRefreshing
| EvReadFile (path : string)
| EvExecuteCode (code : js_code) (moduleName : string)
| EvPathExists (path : string) (found : bool)
| EvWait (ms : Z)
| EvWatch (path : string) (watcher : nat)
| EvGetInspectorValues (path : string)
| EvSetInspectorValues (values : list inspector_value).

(** Resume points: the [await] a refresh is suspended at. *)
Inductive pc :=
| PReadDecorators                 (* await readFile(decorators.ts) *)
| PExecuteDecorators              (* await SandboxMain.ExecuteCode(...) *)
| PPathExists (jsPath : string)   (* await pathExists(jsPath) *)
| PWait (jsPath : string)         (* await Tools.Wait(500) *)
| PGetValues (jsPath : string)    (* await SandboxMain.GetInspectorValues *)
| PDone.

Record comp := mk_comp {
  isMounted : bool;
  script_name : string;             (* selectedObject.metadata.script.name *)
  scriptWatcher : option nat;       (* this._scriptWatcher *)
  open_watchers : list nat;         (* FSWatchers not closed *)
  next_watcher : nat;
  files : list string;              (* files present on disk *)
  refresing : bool;
  inspectorValues : list inspector_value;
  procs : list (pc * list event);   (* the refreshes started so far *)
}.

Definition set_procs (c : comp) (ps : list (pc * list event)) : comp :=
  mk_comp (isMounted c) (script_name c) (scriptWatcher c) (open_watchers c)
    (next_watcher c) (files c) (refresing c) (inspectorValues c) ps.

Definition set_watcher (c : comp) (w : option nat) (opened : list nat)
    (next : nat) : comp :=
  mk_comp (isMounted c) (script_name c) w opened next (files c) (refresing c)
    (inspectorValues c) (procs c).

Definition set_state (c : comp) (r : bool) (vals : list inspector_value) : comp :=
  mk_comp (isMounted c) (script_name c) (scriptWatcher c) (open_watchers c)
    (next_watcher c) (files c) r vals (procs c).

Definition set_mounted (c : comp) (m : bool) : comp :=
  mk_comp m (script_name c) (scriptWatcher c) (open_watchers c)
    (next_watcher c) (files c) (refresing c) (inspectorValues c) (procs c).

Definition add_file (c : comp) (p : string) : comp :=
  mk_comp (isMounted c) (script_name c) (scriptWatcher c) (open_watchers c)
    (next_watcher c) (p :: files c) (refresing c) (inspectorValues c) (procs c).

(** [watcher.close()]. *)
Definition close_watcher (w : nat) (opened : list nat) : list nat :=
  List.filter (fun x => negb (Nat.eqb x w)) opened.

(** [join(Tools.GetAppPath(), "assets", "scripts", "decorators.ts")]. *)
Definition decorators_path (e : env) : string :=
  Path.join [app_path e; "assets"; "scripts"; "decorators.ts"].

Definition decorators_options : ts_options := mk_ts_options ModuleNone ES5 true.

Definition decorators_module : string := "__editor__decorators__.js".

(** The compiled file of a script:
    [join(WorkSpace.DirPath!, "build", normalize(name.substr(0, idx) + ".js"))]
    with [idx = name.lastIndexOf(extname(name))]; [None] when [idx] is -1. *)
Definition compiled_path (e : env) (name : string) : option string :=
  match Js.lastIndexOf name (Path.extname name) with
  | None => None
  | Some idx =>
      Some (Path.join [dir_path e; "build";
                       Path.normalize (String.append (Js.substr0 name idx) ".js")])
  end.

(** [_updateScriptVisibleProperties()] up to its first [await] (inside
    [_refreshDecorators], at [readFile]); the new process is appended. *)
Definition start_refresh (e : env) (c : comp) : comp :=
  let opened := match scriptWatcher c with
                | Some w => close_watcher w (open_watchers c)
                | None => open_watchers c
                end in
  let c := set_watcher c None opened (next_watcher c) in
  if String.eqb (script_name c) "None" then
    set_procs c (procs c ++ [(PDone, [EvForceUpdate])])
  else
    let c := set_state c true (inspectorValues c) in
    set_procs c (procs c ++ [(PReadDecorators,
                              [EvSetRefreshing; EvReadFile (decorators_path e)])]).

(** Resuming a process after its [await], up to its next [await]. *)
Definition step_proc (e : env) (c : comp) (p : pc) (h : list event)
    : comp * (pc * list event) :=
  match p with
  | PReadDecorators =>
      (c, (PExecuteDecorators,
           h ++ [EvExecuteCode (Transpiled (decorators_source e) decorators_options)
                   decorators_module]))
  | PExecuteDecorators =>
      match compiled_path e (script_name c) with
      | None => (c, (PDone, h))
      | Some jsPath =>
          match scriptWatcher c with
          | None =>
              if isMounted c then (c, (PPathExists jsPath, h)) else (c, (PDone, h))
          | Some _ => (c, (PGetValues jsPath, h ++ [EvGetInspectorValues jsPath]))
          end
      end
  | PPathExists jsPath =>
      let found := existsb (String.eqb jsPath) (files c) in
      let h := h ++ [EvPathExists jsPath found] in
      if found then
        if isMounted c then
          let w := next_watcher c in
          (set_watcher c (Some w) (w :: open_watchers c) (S w),
           (PGetValues jsPath, h ++ [EvWatch jsPath w; EvGetInspectorValues jsPath]))
        else (c, (PDone, h))
      else (c, (PWait jsPath, h ++ [EvWait 500%Z]))
  | PWait jsPath =>
      if isMounted c then (c, (PPathExists jsPath, h)) else (c, (PDone, h))
  | PGetValues jsPath =>
      let vals := default [] (sandbox e jsPath) in
      (set_state c false vals, (PDone, h ++ [EvSetInspectorValues vals]))
  | PDone => (c, (PDone, h))
  end.

Definition resume (e : env) (c : comp) (i : nat) : comp :=
  match procs c !! i with
  | Some (p, h) =>
      let '(c', ph) := step_proc e c p h in
      set_procs c' (<[i := ph]> (procs c'))
  | None => c
  end.

(** Modelled from the spec: [AbstractInspector.componentWillUnmount] and
    the [isMounted] flag it maintains are not under src/; the inspectors
    are React components, so [isMounted] is taken to hold from mounting
    until the component unmounts. *)
Definition abstract_inspector_unmount (c : comp) : comp := set_mounted c false.

(** [componentWillUnmount()]: closes [this._scriptWatcher] if set. *)
Definition componentWillUnmount (c : comp) : comp :=
  let c := abstract_inspector_unmount c in
  match scriptWatcher c with
  | Some w => set_watcher c (Some w) (close_watcher w (open_watchers c))
                (next_watcher c)
  | None => c
  end.

Inductive action :=
| Refresh                          (* a caller runs the refresh *)
| Resume (i : nat)                 (* an await of process i completes *)
| FsEvent (w : nat) (ev : string)  (* watcher w reports an event *)
| CreateFile (path : string)       (* the build writes a file *)
| Unmount.

Definition step (e : env) (c : comp) (a : action) : comp :=
  match a with
  | Refresh => start_refresh e c
  | Resume i => resume e c i
  | FsEvent w ev =>
      (* the listener given to [watch]; closed watchers report nothing *)
      if existsb (Nat.eqb w) (open_watchers c) && String.eqb ev "change"
      then start_refresh e c else c
  | CreateFile p => add_file c p
  | Unmount => componentWillUnmount c
  end.

Definition run (e : env) (c : comp) (sched : list action) : comp :=
  fold_left (step e) sched c.

(** A mounted inspector with script [name] attached and no refresh yet. *)
Definition init (name : string) (present : list string) : comp :=
  mk_comp true name None [] 0 present false [] [].

End ScriptRefresh.

(* ------------------------------------------------------------------ *)
(** ** Shapes of a refresh's history *)

Module ScriptRefreshHist.
Import ExportedValues ScriptRefresh.

(** [_refreshDecorators()] as seen from outside: [setState], [readFile],
    [SandboxMain.ExecuteCode]. *)
Definition pre (e : env) : list event :=
  [EvSetRefreshing; EvReadFile (decorators_path e);
   EvExecuteCode (Transpiled (decorators_source e) decorators_options)
     decorators_module].

(** [n] turns of the [while] loop that did not find the file. *)
Fixpoint polling (js : string) (n : nat) : list event :=
  match n with
  | 0 => []
  | S n => EvPathExists js false :: EvWait 500 :: polling js n
  end.

Definition is_query (ev : event) : bool :=
  match ev with EvGetInspectorValues _ => true | _ => false end.

Definition no_query (l : list event) : bool :=
  forallb (fun ev => negb (is_query ev)) l.

(** A history ending in the sandbox query on [js]: either after the
    polling and the [watch] call, or right after the decorators when
    [this._scriptWatcher] was already set. *)
Definition queried (e : env) (js : string) (h : list event) : Prop :=
  (exists n w, h = pre e ++ polling js n ++
                   [EvPathExists js true; EvWatch js w; EvGetInspectorValues js]) \/
  h = pre e ++ [EvGetInspectorValues js].

(** The history a process has at each resume point, for script [name]. *)
Definition proc_ok (e : env) (name : string) (ph : pc * list event) : Prop :=
  let '(p, h) := ph in
  match p with
  | PReadDecorators => h = [EvSetRefreshing; EvReadFile (decorators_path e)]
  | PExecuteDecorators => h = pre e
  | PPathExists js =>
      compiled_path e name = Some js /\ exists n, h = pre e ++ polling js n
  | PWait js =>
      compiled_path e name = Some js /\ exists n, h = pre e ++ polling js (S n)
  | PGetValues js => compiled_path e name = Some js /\ queried e js h
  | PDone =>
      h = [EvForceUpdate] \/ h = pre e \/
      (exists js n, compiled_path e name = Some js /\
         (h = pre e ++ polling js n \/
          h = pre e ++ polling js n ++ [EvPathExists js true])) \/
      (exists js h0, compiled_path e name = Some js /\ queried e js h0 /\
         h = h0 ++ [EvSetInspectorValues (default [] (sandbox e js))])
  end.

Definition comp_ok (e : env) (name : string) (c : comp) : Prop :=
  script_name c = name /\ Forall (proc_ok e name) (procs c).

(** A workspace [/ws] with the application under [/app], whose sandbox
    reports no exported value. *)
Definition e0 : env := mk_env "/app" "/ws" "decorators" (fun _ => Some []).
Definition name0 : string := "src/player.ts".
Definition js0 : string := "/ws/build/src/player.js".

(** One refresh; the compiled file appears after one poll. *)
Definition sched_poll : list action :=
  [Refresh; Resume 0; Resume 0; Resume 0; CreateFile js0; Resume 0;
   Resume 0; Resume 0].

(** Two overlapping refreshes, the compiled file already present. *)
Definition sched_race : list action :=
  [Refresh; Refresh; Resume 0; Resume 0; Resume 0; Resume 1; Resume 1].

(** Two overlapping refreshes that both poll, then the unmount. *)
Definition sched_leak : list action :=
  [Refresh; Refresh; Resume 0; Resume 0; Resume 0; Resume 1; Resume 1;
   Resume 1; CreateFile js0; Resume 0; Resume 0; Resume 1; Resume 1; Unmount].

(** The history of the refresh of [sched_poll]. *)
Definition hist_poll : list event :=
  pre e0 ++ polling js0 1 ++
  [EvPathExists js0 true; EvWatch js0 0; EvGetInspectorValues js0;
   EvSetInspectorValues []].

End ScriptRefreshHist.

(* ------------------------------------------------------------------ *)
(** ** Watches in a refresh's history *)

Module ScriptRefreshWatch.
Import ScriptRefresh.

Definition is_watch (ev : event) : bool :=
  match ev with EvWatch _ _ => true | _ => false end.

(** The number of [watch] calls a refresh made. *)
Definition watch_count (h : list event) : nat := length (List.filter is_watch h).

End ScriptRefreshWatch.

(* ------------------------------------------------------------------ *)
(** ** Changes of a stored property object *)

Module ExportedValuesChange.
Import ExportedValues.

(** How a property object may change: only its [value] field, and only
    while that field is nullish. *)
Definition only_value_set (p p' : property) : Prop :=
  (forall f, f <> "value"%string -> get_field p' f = get_field p f) /\
  (nullish (get_field p "value") = false -> p' = p).

End ExportedValuesChange.

(* ================================================================== *)
(** * Properties *)

Module JsFacts.

Lemma prefix_app (p r : string) : String.prefix p (String.append p r) = true.
Proof.
  induction p as [|a p IH]; simpl; [destruct r; reflexivity|].
  destruct (ascii_dec a a) as [_|n]; [exact IH|contradiction].
Qed.

Lemma index_prefix (p s : string) :
  String.prefix p s = true -> String.index 0 p s = Some 0.
Proof.
  intros H. destruct s as [|c s].
  - destruct p; [reflexivity|discriminate].
  - simpl in *. rewrite H. reflexivity.
Qed.

Lemma indexOf_app (p r : string) : Js.indexOf (String.append p r) p = Some 0.
Proof. apply index_prefix, prefix_app. Qed.

Lemma substring_all (r : string) : String.substring 0 (String.length r) r = r.
Proof. induction r as [|c r IH]; simpl; [reflexivity|now rewrite IH]. Qed.

Lemma substring_after (p r : string) (m : nat) :
  String.substring (String.length p) m (String.append p r) = String.substring 0 m r.
Proof.
  induction p as [|c p IH]; simpl; [reflexivity|].
  destruct m; exact IH.
Qed.

Lemma length_append (p r : string) :
  String.length (String.append p r) = String.length p + String.length r.
Proof. induction p as [|c p IH]; simpl; [reflexivity|rewrite IH; reflexivity]. Qed.

(** Replacing a leading occurrence removes exactly that prefix. *)
Lemma replace_prefix (p r : string) : Js.replace (String.append p r) p "" = r.
Proof.
  unfold Js.replace. rewrite indexOf_app. simpl.
  rewrite length_append, substring_after.
  replace (String.length p + String.length r - String.length p)
    with (String.length r) by lia.
  replace (String.substring 0 0 (String.append p r)) with ""%string
    by (destruct (String.append p r); reflexivity).
  apply substring_all.
Qed.

End JsFacts.

Module VideoMoveFacts.
Import VideoMove.

Lemma set_name_idem (t : texture) (n : string) :
  set_name (set_name t n) n = set_name t n.
Proof. reflexivity. Qed.

(** The effect of the [forEach] loop on one texture object, whatever the
    aliasing in the list it walks. *)
Lemma fold_move_one (dir from to : string) (l : list nat) (h : heap) (t : nat) :
  fold_left (move_one dir from to) l h t =
  if existsb (Nat.eqb t) l && String.eqb (Path.join [dir; name (h t)]) from
  then set_name (h t) (Js.replace to (Path.join [dir; "/"]) "")
  else h t.
Proof.
  revert h. induction l as [|i l IH]; intros h; simpl; [reflexivity|].
  rewrite IH. unfold move_one.
  destruct (Nat.eqb t i) eqn:Eti.
  - apply Nat.eqb_eq in Eti; subst i. simpl.
    destruct (String.eqb (Path.join [dir; name (h t)]) from) eqn:Em.
    + unfold heap_set. rewrite Nat.eqb_refl.
      destruct (existsb _ l && _); reflexivity.
    + rewrite Em, andb_false_r. reflexivity.
  - simpl. destruct (String.eqb (Path.join [dir; name (h i)]) from);
      unfold heap_set; rewrite ?Eti; reflexivity.
Qed.

Lemma existsb_filter_video (h : heap) (l : list nat) (t : nat) :
  existsb (Nat.eqb t) (List.filter (fun x => is_video (h x)) l) =
  existsb (Nat.eqb t) l && is_video (h t).
Proof.
  induction l as [|i l IH]; simpl; [reflexivity|].
  destruct (is_video (h i)) eqn:Ev; simpl; rewrite IH;
    destruct (Nat.eqb t i) eqn:E; simpl; try reflexivity.
  - apply Nat.eqb_eq in E; subst; rewrite Ev; reflexivity.
  - apply Nat.eqb_eq in E; subst; rewrite Ev, andb_false_r; reflexivity.
Qed.

Lemma moveFile_heap (ed : editor) (sc : scene) (from to : string) (t : nat) :
  ed_scene ed = Some sc ->
  exists ed', moveFile ed from to = Ok ed' /\
    ed_scene ed' = ed_scene ed /\ assetsDirectory ed' = assetsDirectory ed /\
    ed_heap ed' t =
      if existsb (Nat.eqb t) (textures sc) && is_video (ed_heap ed t)
         && String.eqb (Path.join [assetsDirectory ed; name (ed_heap ed t)]) from
      then set_name (ed_heap ed t) (Js.replace to (assets_prefix ed) "")
      else ed_heap ed t.
Proof.
  intros Hs. unfold moveFile. rewrite Hs.
  eexists; split; [reflexivity|]. simpl. split; [exact Hs|split; [reflexivity|]].
  rewrite fold_move_one, existsb_filter_video. reflexivity.
Qed.

Lemma existsb_In (t : nat) (l : list nat) : In t l -> existsb (Nat.eqb t) l = true.
Proof.
  intros H. apply existsb_exists. exists t. split; [exact H|apply Nat.eqb_refl].
Qed.

End VideoMoveFacts.

Module VideoMoveClaims.
Import VideoMove VideoMoveFacts.

(** C1 (amended). With a scene loaded, [moveFile from to] renames every
    listed video texture whose name joined onto the assets directory is
    [from]: its new name is [to] with the first occurrence of
    [join(assetsDirectory, "/")] removed, which is exactly [to] without
    that prefix when [to] starts with it. *)
Theorem moveFile_renames_matching (ed : editor) (sc : scene) (from to : string)
    (t : nat) :
  ed_scene ed = Some sc ->
  In t (textures sc) ->
  is_video (ed_heap ed t) = true ->
  Path.join [assetsDirectory ed; name (ed_heap ed t)] = from ->
  exists ed', moveFile ed from to = Ok ed' /\
    name (ed_heap ed' t) = Js.replace to (assets_prefix ed) "" /\
    (forall r, to = String.append (assets_prefix ed) r -> name (ed_heap ed' t) = r).
Proof.
  intros Hs Hin Hv Hp.
  destruct (moveFile_heap ed sc from to t Hs) as (ed' & Hm & _ & _ & Hh).
  exists ed'. split; [exact Hm|].
  rewrite Hh, (existsb_In t _ Hin), Hv, Hp, String.eqb_refl. simpl.
  split; [reflexivity|]. intros r ->. apply JsFacts.replace_prefix.
Qed.

Lemma moveFile_renames_matching_witness :
  exists ed', moveFile (mk_editor (Some (mk_scene [0; 1])) "/p/assets"
                          (fun _ => mk_texture VideoTexture "clips/v.mp4"))
                "/p/assets/clips/v.mp4" "/p/assets/moved/v.mp4" = Ok ed' /\
    name (ed_heap ed' 1) = Js.replace "/p/assets/moved/v.mp4" "/p/assets/" "" /\
    (forall r, "/p/assets/moved/v.mp4"%string = String.append "/p/assets/" r ->
               name (ed_heap ed' 1) = r).
Proof.
  apply (moveFile_renames_matching
           (mk_editor (Some (mk_scene [0; 1])) "/p/assets"
              (fun _ => mk_texture VideoTexture "clips/v.mp4"))
           (mk_scene [0; 1]) "/p/assets/clips/v.mp4" "/p/assets/moved/v.mp4" 1).
  - reflexivity.
  - simpl. right. left. reflexivity.
  - reflexivity.
  - vm_compute. reflexivity.
Defined.

(** C1 as stated fails: when [to] contains the assets directory only
    further in, [replace] cuts it out of the middle instead of leaving [to]
    without a prefix to strip. *)
Lemma moveFile_prefix_counterexample :
  ~ (forall (ed : editor) (sc : scene) (from to : string) (t : nat) (ed' : editor),
        ed_scene ed = Some sc -> In t (textures sc) ->
        is_video (ed_heap ed t) = true ->
        Path.join [assetsDirectory ed; name (ed_heap ed t)] = from ->
        moveFile ed from to = Ok ed' ->
        name (ed_heap ed' t) = strip_prefix (assets_prefix ed) to).
Proof.
  intros H.
  pose (ed := mk_editor (Some (mk_scene [0])) "/p/assets"
                (fun _ => mk_texture VideoTexture "v.mp4")).
  pose (ed' := match moveFile ed "/p/assets/v.mp4" "/q/p/assets/v.mp4" with
               | Ok e => e | Throw _ => ed end).
  specialize (H ed (mk_scene [0]) "/p/assets/v.mp4" "/q/p/assets/v.mp4" 0 ed').
  assert (Hn : name (ed_heap ed' 0) = "/qv.mp4"%string) by (vm_compute; reflexivity).
  assert (Hs : strip_prefix (assets_prefix ed) "/q/p/assets/v.mp4"
               = "/q/p/assets/v.mp4"%string) by (vm_compute; reflexivity).
  rewrite Hn, Hs in H.
  discriminate H; [reflexivity | simpl; left; reflexivity | reflexivity
                  | vm_compute; reflexivity | reflexivity].
Qed.

(** C4 (amended). With a scene loaded, [isFileUsed path] resolves to
    [true] exactly when some listed texture is a video texture whose name
    is [path] with the first occurrence of [join(assetsDirectory, "/")]
    removed (for a path under the assets directory: [path] without that
    prefix). It only returns a boolean: no scene or texture is written. *)
Theorem isFileUsed_spec (ed : editor) (sc : scene) (path : string) :
  ed_scene ed = Some sc ->
  (exists b, isFileUsed ed path = Ok b) /\
  (isFileUsed ed path = Ok true <->
     exists t, In t (textures sc) /\ is_video (ed_heap ed t) = true /\
               name (ed_heap ed t) = Js.replace path (assets_prefix ed) "") /\
  (forall r, path = String.append (assets_prefix ed) r ->
             Js.replace path (assets_prefix ed) "" = r).
Proof.
  intros Hs. unfold isFileUsed. rewrite Hs.
  split; [eexists; reflexivity|]. split.
  - destruct (find _ (textures sc)) as [t|] eqn:Ef; split.
    + intros _. apply find_some in Ef as [Hin Hf].
      apply andb_true_iff in Hf as [Hv Hn]. apply String.eqb_eq in Hn.
      exists t. repeat split; assumption.
    + intros _. reflexivity.
    + intros Hc. discriminate Hc.
    + intros (t & Hin & Hv & Hn). exfalso.
      pose proof (find_none _ _ Ef t Hin) as Hf. simpl in Hf.
      rewrite Hv, Hn, String.eqb_refl in Hf. discriminate Hf.
  - intros r ->. apply JsFacts.replace_prefix.
Qed.

Lemma isFileUsed_spec_witness :
  (exists b, isFileUsed (mk_editor (Some (mk_scene [0])) "/p/assets"
                           (fun _ => mk_texture VideoTexture "v.mp4"))
                        "/p/assets/v.mp4" = Ok b) /\
  (isFileUsed (mk_editor (Some (mk_scene [0])) "/p/assets"
                 (fun _ => mk_texture VideoTexture "v.mp4"))
              "/p/assets/v.mp4" = Ok true <->
     exists t, In t [0] /\ is_video (mk_texture VideoTexture "v.mp4") = true /\
               name (mk_texture VideoTexture "v.mp4")
               = Js.replace "/p/assets/v.mp4" (Path.join ["/p/assets"; "/"]) "") /\
  (forall r, "/p/assets/v.mp4"%string = String.append (Path.join ["/p/assets"; "/"]) r ->
             Js.replace "/p/assets/v.mp4" (Path.join ["/p/assets"; "/"]) "" = r).
Proof.
  apply (isFileUsed_spec (mk_editor (Some (mk_scene [0])) "/p/assets"
                            (fun _ => mk_texture VideoTexture "v.mp4"))
                         (mk_scene [0]) "/p/assets/v.mp4").
  reflexivity.
Defined.

(** C4 as stated fails: a path that contains the assets directory only
    further in is reported as used by a texture whose name is that path
    with the inner occurrence cut out. *)
Lemma isFileUsed_prefix_counterexample :
  ~ (forall (ed : editor) (sc : scene) (path : string),
        ed_scene ed = Some sc ->
        (isFileUsed ed path = Ok true <->
           exists t, In t (textures sc) /\ is_video (ed_heap ed t) = true /\
                     name (ed_heap ed t) = strip_prefix (assets_prefix ed) path)).
Proof.
  intros H.
  pose (ed := mk_editor (Some (mk_scene [0])) "/p/assets"
                (fun _ => mk_texture VideoTexture "/qv.mp4")).
  destruct (H ed (mk_scene [0]) "/q/p/assets/v.mp4" eq_refl) as [H1 _].
  assert (Hu : isFileUsed ed "/q/p/assets/v.mp4" = Ok true)
    by (vm_compute; reflexivity).
  destruct (H1 Hu) as (t & Hin & _ & Hn).
  simpl in Hin. destruct Hin as [<-|[]].
  vm_compute in Hn. discriminate Hn.
Qed.

(** C5. [moveFile] touches nothing else: a texture object that is not a
    video texture, or whose name joined onto the assets directory is not
    [from], is left as it was, and the scene (its texture list) and the
    assets directory are unchanged. *)
Theorem moveFile_frame (ed : editor) (sc : scene) (from to : string) (t : nat) :
  ed_scene ed = Some sc ->
  is_video (ed_heap ed t) = false \/
  Path.join [assetsDirectory ed; name (ed_heap ed t)] <> from ->
  exists ed', moveFile ed from to = Ok ed' /\
    ed_heap ed' t = ed_heap ed t /\
    ed_scene ed' = ed_scene ed /\
    assetsDirectory ed' = assetsDirectory ed.
Proof.
  intros Hs Hc.
  destruct (moveFile_heap ed sc from to t Hs) as (ed' & Hm & Hsc & Hd & Hh).
  exists ed'. repeat split; try assumption.
  rewrite Hh. destruct Hc as [Hv|Hp].
  - rewrite Hv, andb_false_r. reflexivity.
  - apply String.eqb_neq in Hp. rewrite Hp, andb_false_r. reflexivity.
Qed.

Lemma moveFile_frame_witness :
  exists ed', moveFile (mk_editor (Some (mk_scene [0; 1])) "/p/assets"
                          (fun i => if Nat.eqb i 0
                                    then mk_texture OtherTexture "clips/v.mp4"
                                    else mk_texture VideoTexture "clips/w.mp4"))
                "/p/assets/clips/v.mp4" "/p/assets/moved/v.mp4" = Ok ed' /\
    ed_heap ed' 0 = mk_texture OtherTexture "clips/v.mp4" /\
    ed_scene ed' = Some (mk_scene [0; 1]) /\
    assetsDirectory ed' = "/p/assets"%string.
Proof.
  apply (moveFile_frame
           (mk_editor (Some (mk_scene [0; 1])) "/p/assets"
              (fun i => if Nat.eqb i 0
                        then mk_texture OtherTexture "clips/v.mp4"
                        else mk_texture VideoTexture "clips/w.mp4"))
           (mk_scene [0; 1]) "/p/assets/clips/v.mp4" "/p/assets/moved/v.mp4" 0).
  - reflexivity.
  - left. reflexivity.
Defined.

(** C9. Both handlers dereference [editor.scene!]: with a scene they
    resolve, without one they reject with a [TypeError]. *)
Theorem video_handlers_need_scene (ed : editor) (path from to : string) :
  match ed_scene ed with
  | None => isFileUsed ed path = Throw TypeError /\
            moveFile ed from to = Throw TypeError
  | Some _ => (exists b, isFileUsed ed path = Ok b) /\
              (exists ed', moveFile ed from to = Ok ed')
  end.
Proof.
  unfold isFileUsed, moveFile.
  destruct (ed_scene ed); split; eauto.
Qed.

End VideoMoveClaims.

Module ExportedValuesClaims.
Import ExportedValues.

Lemma get_set_field (fs : property) (k : string) (v : jsval) :
  get_field (set_field fs k v) k = v.
Proof.
  induction fs as [|[k' v'] fs IH]; simpl.
  - rewrite String.eqb_refl. reflexivity.
  - destruct (String.eqb k' k) eqn:E; simpl; rewrite E; [|exact IH].
    apply String.eqb_eq in E. subst. reflexivity.
Qed.

Lemma value_rhs_nullish (iv : inspector_value) (cur : jsval) :
  nullish cur = true -> value_rhs iv cur = value_rhs iv JUndefined.
Proof. destruct cur; try discriminate; reflexivity. Qed.

Lemma value_rhs_defined (iv : inspector_value) :
  nullish (value_rhs iv JUndefined) = false.
Proof.
  destruct iv as [t k n d]; unfold value_rhs; simpl.
  destruct t, d; simpl; try reflexivity;
    repeat match goal with |- context [if ?b then _ else _] => destruct b end;
    reflexivity.
Qed.

Lemma value_rhs_default (iv : inspector_value) :
  default_well_typed iv -> value_rhs iv JUndefined = default_or_zero iv.
Proof.
  destruct iv as [t k n d]; unfold default_well_typed, value_rhs, default_or_zero;
    simpl; intros Hw.
  destruct t; try (destruct d; reflexivity);
    destruct Hw as [Hn|[fs ->]]; [destruct d; try discriminate; reflexivity
                                 |reflexivity|destruct d; try discriminate; reflexivity
                                 |reflexivity|destruct d; try discriminate; reflexivity
                                 |reflexivity|destruct d; try discriminate; reflexivity
                                 |reflexivity].
Qed.

Lemma render_one_stored (m : properties) (ws : list widget)
    (iv : inspector_value) (k : string) :
  stored_value (fst (render_one (m, ws) iv)) k =
  if String.eqb (propertyKey iv) k
  then (if nullish (stored_value m k) then value_rhs iv JUndefined
        else stored_value m k)
  else stored_value m k.
Proof.
  unfold render_one, stored_value. simpl.
  destruct (String.eqb (propertyKey iv) k) eqn:E.
  - apply String.eqb_eq in E. subst k. rewrite lookup_insert_eq.
    destruct (m !! propertyKey iv) as [p|]; simpl.
    + destruct (nullish (get_field p "value")) eqn:Hn.
      * etransitivity; [apply get_set_field|]. apply value_rhs_nullish, Hn.
      * reflexivity.
    + reflexivity.
  - apply String.eqb_neq in E. rewrite lookup_insert_ne by exact E. reflexivity.
Qed.

Lemma render_one_widgets (m : properties) (ws : list widget) (iv : inspector_value) :
  snd (render_one (m, ws) iv) = ws ++ [widget_of iv].
Proof. reflexivity. Qed.

Lemma fold_render_widgets (ivs : list inspector_value) (m : properties)
    (ws : list widget) :
  snd (fold_left render_one ivs (m, ws)) = ws ++ map widget_of ivs.
Proof.
  revert m ws. induction ivs as [|iv ivs IH]; intros m ws; cbn [fold_left map].
  - rewrite app_nil_r. reflexivity.
  - pose proof (render_one_widgets m ws iv) as Hw.
    destruct (render_one (m, ws) iv) as [m1 ws1]. simpl in Hw. subst ws1.
    rewrite IH, <- app_assoc. reflexivity.
Qed.

Lemma fold_render_stored (ivs : list inspector_value) (m : properties)
    (ws : list widget) (k : string) :
  stored_value (fst (fold_left render_one ivs (m, ws))) k =
  match find (fun iv => String.eqb (propertyKey iv) k) ivs with
  | Some iv => if nullish (stored_value m k) then value_rhs iv JUndefined
               else stored_value m k
  | None => stored_value m k
  end.
Proof.
  revert m ws. induction ivs as [|iv ivs IH]; intros m ws; cbn [fold_left find];
    [reflexivity|].
  pose proof (render_one_stored m ws iv k) as Hs.
  destruct (render_one (m, ws) iv) as [m1 ws1]. simpl in Hs.
  rewrite IH, Hs.
  destruct (String.eqb (propertyKey iv) k) eqn:E.
  - destruct (nullish (stored_value m k)) eqn:Hn.
    + rewrite value_rhs_defined. destruct (find _ ivs); reflexivity.
    + rewrite Hn. destruct (find _ ivs); reflexivity.
  - reflexivity.
Qed.

Lemma find_first {A : Type} (f : A -> bool) (pre post : list A) (x : A) :
  Forall (fun y => f y = false) pre -> f x = true ->
  find f (pre ++ x :: post) = Some x.
Proof.
  intros Hpre Hx. induction Hpre as [|y pre Hy _ IH]; simpl.
  - rewrite Hx. reflexivity.
  - rewrite Hy. exact IH.
Qed.

(** C6. For an attached script ([name] is not "None") with exported
    values, [_getInspectorValues] renders one widget per exported value,
    in order, whose kind is given by the declared type (number, string,
    boolean, Vector2, Vector3, colour for Color3/Color4); for a value whose
    key has no stored value yet (nothing stored before the render and no
    earlier exported value with the same key), the stored value becomes
    the declared default when present, otherwise the type's zero: 0, "",
    false, the zero vector, or black with alpha 1 only for Color4. Stored
    values are never overwritten. *)
Theorem getInspectorValues_spec (script_name : string)
    (ivs : list inspector_value) (props : option properties) :
  script_name <> "None"%string -> ivs <> [] ->
  exists props',
    getInspectorValues script_name ivs props = (Some (map widget_of ivs), Some props') /\
    (forall pre iv post,
        ivs = pre ++ iv :: post ->
        Forall (fun iv' => propertyKey iv' <> propertyKey iv) pre ->
        nullish (stored_value (default ∅ props) (propertyKey iv)) = true ->
        default_well_typed iv ->
        stored_value props' (propertyKey iv) = default_or_zero iv) /\
    (forall k, nullish (stored_value (default ∅ props) k) = false ->
               stored_value props' k = stored_value (default ∅ props) k).
Proof.
  intros Hn Hne. unfold getInspectorValues.
  apply String.eqb_neq in Hn. rewrite Hn.
  destruct ivs as [|iv0 ivs0] eqn:Eivs; [contradiction|]. rewrite <- Eivs.
  pose proof (fold_render_widgets ivs (default ∅ props) []) as Hw.
  pose proof (fold_render_stored ivs (default ∅ props) []) as Hs.
  destruct (fold_left render_one ivs (default ∅ props, [])) as [m ws].
  simpl in Hw, Hs. subst ws.
  exists m. split; [reflexivity|]. split.
  - intros pre iv post -> Hpre Hnull Hwt.
    rewrite Hs, (find_first _ pre post iv), Hnull.
    + apply value_rhs_default, Hwt.
    + eapply Forall_impl; [exact Hpre|]. intros y Hy. apply String.eqb_neq, Hy.
    + apply String.eqb_refl.
  - intros k Hk. rewrite Hs, Hk. destruct (find _ ivs); reflexivity.
Qed.

Lemma getInspectorValues_spec_witness :
  exists props',
    getInspectorValues "scripts/player.ts" [mk_iv TColor4 "tint" None JUndefined] None
      = (Some (map widget_of [mk_iv TColor4 "tint" None JUndefined]), Some props') /\
    (forall pre iv post,
        [mk_iv TColor4 "tint" None JUndefined] = pre ++ iv :: post ->
        Forall (fun iv' => propertyKey iv' <> propertyKey iv) pre ->
        nullish (stored_value (default ∅ None) (propertyKey iv)) = true ->
        default_well_typed iv ->
        stored_value props' (propertyKey iv) = default_or_zero iv) /\
    (forall k, nullish (stored_value (default ∅ None) k) = false ->
               stored_value props' k = stored_value (default ∅ None) k).
Proof.
  apply (getInspectorValues_spec "scripts/player.ts"
           [mk_iv TColor4 "tint" None JUndefined] None).
  - discriminate.
  - discriminate.
Defined.

End ExportedValuesClaims.

Module DefaultSceneClaims.
Import DefaultScene.

Lemma update_at_eq (c : nat) (f : control -> control) (h : nat -> control) :
  update_at c f h c = f (h c).
Proof. unfold update_at. rewrite Nat.eqb_refl. reflexivity. Qed.

Lemma update_at_ne (c j : nat) (f : control -> control) (h : nat -> control) :
  j <> c -> update_at c f h j = h j.
Proof. intros Hne. unfold update_at. apply Nat.eqb_neq in Hne. rewrite Hne. reflexivity. Qed.

Lemma insert_by_zIndex_perm (zOf : nat -> Z) (c : nat) (l : list nat) :
  Permutation (insert_by_zIndex zOf c l) (c :: l).
Proof.
  induction l as [|x l IH]; cbn; [reflexivity|].
  destruct (Z.ltb _ _); [reflexivity|].
  rewrite IH. constructor.
Qed.

Lemma remove_first_absent (c : nat) (l : list nat) :
  existsb (Nat.eqb c) l = false -> remove_first c l = l.
Proof.
  induction l as [|x l IH]; cbn; [reflexivity|].
  intros H. apply orb_false_iff in H as [H1 H2].
  rewrite Nat.eqb_sym, H1, IH by exact H2. reflexivity.
Qed.

Lemma existsb_fresh (n m : nat) (l : list nat) :
  Forall (fun j => j < n) l -> n <= m -> existsb (Nat.eqb m) l = false.
Proof.
  intros Hl Hm. induction Hl as [|x l Hx _ IH]; cbn; [reflexivity|].
  rewrite IH, orb_false_r. apply Nat.eqb_neq. lia.
Qed.

Lemma existsb_insert (zOf : nat -> Z) (m c : nat) (l : list nat) :
  existsb (Nat.eqb m) (insert_by_zIndex zOf c l) = Nat.eqb m c || existsb (Nat.eqb m) l.
Proof.
  induction l as [|x l IH]; cbn; [reflexivity|].
  destruct (Z.ltb _ _); cbn; [reflexivity|].
  rewrite IH. destruct (Nat.eqb m x), (Nat.eqb m c); reflexivity.
Qed.

(** Read the heap through the updates of the fresh object identities. *)
Ltac solve_ids :=
  repeat first
    [ rewrite update_at_eq; cbn -[Nat.eqb]
    | rewrite update_at_ne by lia; cbn -[Nat.eqb] ].

(** C7. [CreateLabel] returns a new Rectangle named [str], added to the
    GUI, whose only child is a white TextBlock showing [str]. Without
    lines the rectangle is linked with the mesh and is the only control
    added; with lines the rectangle is not linked, and a dashed Line is
    also added to the GUI, linked with the mesh and connected to the
    rectangle. The root container orders its children by [zIndex], so
    the new controls are among its children in some order. The texture
    is assumed to hold only allocated controls. *)
Theorem CreateLabel_spec (g : gui) (mesh : nat) (str : string) (lines : bool)
    (width height : string) :
  Forall (fun j => j < gui_next g) (gui_controls g) ->
  let '(label, g') := CreateLabel mesh str lines width height g in
  ctl_kind (gui_heap g' label) = Rectangle /\
  ctl_name (gui_heap g' label) = Some str /\
  (exists t, ctl_children (gui_heap g' label) = [t] /\
             ctl_kind (gui_heap g' t) = TextBlock /\
             ctl_text (gui_heap g' t) = str /\
             ctl_color (gui_heap g' t) = "white"%string) /\
  if lines then
    ctl_linked_mesh (gui_heap g' label) = None /\
    exists line, Permutation (gui_controls g') (gui_controls g ++ [label; line]) /\
      ctl_kind (gui_heap g' line) = Line /\
      ctl_dash (gui_heap g' line) = [5; 10]%Z /\
      ctl_linked_mesh (gui_heap g' line) = Some mesh /\
      ctl_connected (gui_heap g' line) = Some label
  else
    ctl_linked_mesh (gui_heap g' label) = Some mesh /\
    Permutation (gui_controls g') (gui_controls g ++ [label]).
Proof.
  destruct g as [ctrls h n]. cbn [gui_controls gui_next]. intros Hwf.
  assert (H0 : existsb (Nat.eqb n) ctrls = false) by (apply (existsb_fresh n); auto).
  assert (H2 : existsb (Nat.eqb (S (S n))) ctrls = false)
    by (apply (existsb_fresh n); auto).
  assert (H1 : Nat.eqb (S (S n)) n = false) by (apply Nat.eqb_neq; lia).
  destruct lines;
    unfold CreateLabel, bind, ret, new_control, set_style, set_text, set_color,
      set_dash, add_child, gui_addControl, linkWithMesh, set_connectedControl,
      set_zIndex, modify_control, reorder; cbn -[Nat.eqb]; solve_ids;
    rewrite ?H0; cbn -[Nat.eqb]; solve_ids;
    rewrite ?(remove_first_absent n ctrls H0); cbn -[Nat.eqb]; solve_ids;
    rewrite ?existsb_insert, ?H1, ?H2; cbn -[Nat.eqb]; solve_ids;
    rewrite ?remove_first_absent by (rewrite existsb_insert, H1, H2; reflexivity);
    cbn -[Nat.eqb]; solve_ids.
  all: split; [reflexivity|]; split; [reflexivity|];
    split; [exists (S n); solve_ids; repeat split|].
  - split; [reflexivity|]. exists (S (S n)). split.
    + rewrite !insert_by_zIndex_perm, (Permutation_app_comm ctrls). apply perm_swap.
    + solve_ids. repeat split.
  - split; [reflexivity|].
    rewrite insert_by_zIndex_perm, (Permutation_app_comm ctrls). reflexivity.
Qed.

Lemma CreateLabel_spec_witness :
  Forall (fun j => j < gui_next gui0) (gui_controls gui0) /\
  let '(label, g') := CreateLabel 3 "label" true "100px" "20px" gui0 in
  ctl_linked_mesh (gui_heap g' label) = None /\
  exists line, Permutation (gui_controls g') (gui_controls gui0 ++ [label; line]) /\
    ctl_linked_mesh (gui_heap g' line) = Some 3.
Proof.
  assert (Hwf : Forall (fun j => j < gui_next gui0) (gui_controls gui0))
    by (cbn; repeat constructor).
  split; [exact Hwf|].
  pose proof (CreateLabel_spec gui0 3 "label" true "100px" "20px" Hwf) as Hs.
  destruct (CreateLabel 3 "label" true "100px" "20px" gui0) as [label g'].
  destruct Hs as (_ & _ & _ & Hl & line & Hp & _ & _ & Hm & _).
  split; [exact Hl|]. exists line. split; [exact Hp|exact Hm].
Defined.

End DefaultSceneClaims.

Module ScriptRefreshFacts.
Import ExportedValues ScriptRefresh ScriptRefreshHist.

Lemma polling_snoc (js : string) (n : nat) :
  polling js n ++ [EvPathExists js false; EvWait 500] = polling js (S n).
Proof.
  induction n as [|n IH]; [reflexivity|].
  simpl. rewrite IH. reflexivity.
Qed.

Lemma start_refresh_name (e : env) (c : comp) :
  script_name (start_refresh e c) = script_name c.
Proof.
  unfold start_refresh. destruct (String.eqb _ _); reflexivity.
Qed.

Lemma start_refresh_ok (e : env) (c : comp) :
  comp_ok e (script_name c) c -> comp_ok e (script_name c) (start_refresh e c).
Proof.
  intros [_ Hf]. split; [apply start_refresh_name|].
  unfold start_refresh; cbn.
  destruct (String.eqb (script_name c) "None"); cbn;
    apply Forall_app; split; try exact Hf; constructor; cbn; auto.
Qed.

Ltac norm := cbn [fst snd proc_ok script_name procs set_watcher set_state].

Lemma step_proc_ok (e : env) (c : comp) (p : pc) (h : list event) :
  proc_ok e (script_name c) (p, h) ->
  script_name (fst (step_proc e c p h)) = script_name c /\
  procs (fst (step_proc e c p h)) = procs c /\
  proc_ok e (script_name c) (snd (step_proc e c p h)).
Proof.
  destruct p as [| |js|js|js|]; cbn [proc_ok step_proc]; intros Hp.
  - subst h. norm. auto.
  - subst h. destruct (compiled_path e (script_name c)) as [js|] eqn:Ec.
    + destruct (scriptWatcher c); [|destruct (isMounted c)]; norm;
        (split; [reflexivity|split; [reflexivity|]]).
      * split; [exact Ec|]. right. reflexivity.
      * split; [exact Ec|]. exists 0. cbn [polling]. rewrite app_nil_r. reflexivity.
      * right; left; reflexivity.
    + norm. auto.
  - destruct Hp as [Ec [n ->]].
    destruct (existsb (String.eqb js) (files c)); [destruct (isMounted c)|]; norm;
      (split; [reflexivity|split; [reflexivity|]]).
    + split; [exact Ec|]. left. exists n, (next_watcher c).
      rewrite <- !app_assoc. reflexivity.
    + right; right; left. exists js, n. split; [exact Ec|].
      right. rewrite <- !app_assoc. reflexivity.
    + split; [exact Ec|]. exists n.
      rewrite <- !app_assoc. rewrite polling_snoc. reflexivity.
  - destruct Hp as [Ec [n ->]].
    destruct (isMounted c); norm; (split; [reflexivity|split; [reflexivity|]]).
    + split; [exact Ec|]. exists (S n). reflexivity.
    + right; right; left. exists js, (S n). auto.
  - destruct Hp as [Ec Hq]. norm. (split; [reflexivity|split; [reflexivity|]]).
    right; right; right. exists js, h. auto.
  - norm. auto.
Qed.

Lemma resume_ok (e : env) (c : comp) (i : nat) :
  comp_ok e (script_name c) c -> comp_ok e (script_name c) (resume e c i).
Proof.
  intros [_ Hf]. unfold resume.
  destruct (procs c !! i) as [[p h]|] eqn:Ei; [|split; auto].
  pose proof (Forall_lookup_1 _ _ _ _ Hf Ei) as Hp.
  destruct (step_proc_ok e c p h Hp) as [Hn [Hs Hok]].
  destruct (step_proc e c p h) as [c' ph]. cbn in *.
  split; [exact Hn|]. rewrite Hs. apply Forall_insert; assumption.
Qed.

Lemma step_ok (e : env) (c : comp) (a : action) :
  comp_ok e (script_name c) c ->
  script_name (step e c a) = script_name c /\
  comp_ok e (script_name c) (step e c a).
Proof.
  intros H. destruct a as [|i|w ev|p|]; cbn.
  - split; [apply start_refresh_name | apply start_refresh_ok, H].
  - pose proof (resume_ok e c i H) as Hr. split; [apply Hr|exact Hr].
  - destruct (existsb _ _ && _).
    + split; [apply start_refresh_name | apply start_refresh_ok, H].
    + auto.
  - destruct H. split; [reflexivity|split; auto].
  - unfold componentWillUnmount, abstract_inspector_unmount. destruct H.
    cbn. destruct (scriptWatcher c); cbn; split; auto; split; auto.
Qed.

Lemma run_ok (e : env) (name : string) (present : list string)
    (sched : list action) :
  comp_ok e name (run e (init name present) sched).
Proof.
  unfold run.
  assert (H : comp_ok e name (init name present)) by (split; [reflexivity|constructor]).
  revert H. generalize (init name present) as c.
  induction sched as [|a sched IH]; intros c H; cbn; [exact H|].
  apply IH. destruct H as [Hn H]. subst name.
  apply (step_ok e c a). split; auto.
Qed.

Lemma no_query_app (l r : list event) :
  no_query (l ++ r) = no_query l && no_query r.
Proof. unfold no_query. apply forallb_app. Qed.

Lemma no_query_polling (js : string) (n : nat) : no_query (polling js n) = true.
Proof. induction n as [|n IH]; [reflexivity|exact IH]. Qed.

Lemma no_query_absurd (l1 l2 L : list event) (js : string) :
  l1 ++ EvGetInspectorValues js :: l2 = L -> no_query L = true -> False.
Proof.
  intros <-. rewrite no_query_app. cbn. rewrite andb_false_r. discriminate.
Qed.

(** A history with one sandbox query splits around it in one way. *)
Lemma split_query (l1 l2 A B : list event) (x y : event) :
  l1 ++ x :: l2 = A ++ y :: B -> is_query x = true -> is_query y = true ->
  no_query A = true -> no_query B = true -> l1 = A /\ x = y /\ l2 = B.
Proof.
  revert A. induction l1 as [|a l1 IH]; intros [|b A] E Hx Hy HA HB;
    cbn in E; injection E as E1 E2.
  - subst. auto.
  - subst b. cbn in HA. rewrite Hx in HA. discriminate.
  - subst a B. exfalso. rewrite no_query_app in HB. cbn in HB.
    rewrite Hx, andb_false_r in HB. discriminate.
  - subst b. cbn in HA. apply andb_prop in HA as [_ HA].
    destruct (IH A E2 Hx Hy HA HB) as [-> [-> ->]]. auto.
Qed.

Lemma queried_split (e : env) (js js' : string) (h0 l1 l2 B : list event) :
  queried e js' h0 -> no_query B = true ->
  l1 ++ EvGetInspectorValues js :: l2 = h0 ++ B ->
  js = js' /\
  ((exists n w, l1 = pre e ++ polling js n ++ [EvPathExists js true; EvWatch js w]) \/
   l1 = pre e) /\ l2 = B.
Proof.
  intros [[n [w ->]] | ->] HB E.
  - assert (E' : l1 ++ EvGetInspectorValues js :: l2 =
                 (pre e ++ polling js' n ++ [EvPathExists js' true; EvWatch js' w])
                 ++ EvGetInspectorValues js' :: B)
      by (rewrite E, <- !app_assoc; reflexivity).
    apply split_query in E' as [-> [Ej ->]]; auto;
      [|rewrite !no_query_app, no_query_polling; reflexivity].
    injection Ej as ->. split; [reflexivity|]. split; [|reflexivity].
    left. exists n, w. reflexivity.
  - assert (E' : l1 ++ EvGetInspectorValues js :: l2 =
                 pre e ++ EvGetInspectorValues js' :: B)
      by (rewrite E, <- !app_assoc; reflexivity).
    apply split_query in E' as [-> [Ej ->]]; auto.
    injection Ej as ->. auto.
Qed.

Ltac no_query_tac :=
  rewrite ?no_query_app, ?no_query_polling; reflexivity.

(** Where a sandbox query sits in the history of a process. *)
Lemma proc_ok_query (e : env) (name : string) (p : pc) (l1 l2 : list event)
    (js : string) :
  proc_ok e name (p, l1 ++ EvGetInspectorValues js :: l2) ->
  compiled_path e name = Some js /\
  ((exists n w, l1 = pre e ++ polling js n ++ [EvPathExists js true; EvWatch js w]) \/
   l1 = pre e) /\
  (l2 = [] \/ l2 = [EvSetInspectorValues (default [] (sandbox e js))]).
Proof.
  destruct p as [| |js'|js'|js'|]; cbn [proc_ok]; intros H.
  - exfalso. eapply no_query_absurd; [exact H|reflexivity].
  - exfalso. eapply no_query_absurd; [exact H|reflexivity].
  - exfalso. destruct H as [_ [n H]]. eapply no_query_absurd; [exact H|no_query_tac].
  - exfalso. destruct H as [_ [n H]]. eapply no_query_absurd; [exact H|no_query_tac].
  - destruct H as [Ec Hq].
    destruct (queried_split e js js' _ l1 l2 [] Hq eq_refl) as [-> [Hl ->]];
      [rewrite app_nil_r; reflexivity|].
    auto.
  - destruct H as [H | [H | [[js' [n [_ [H | H]]]] | [js' [h0 [Ec [Hq H]]]]]]];
      try (exfalso; eapply no_query_absurd; [exact H|no_query_tac]).
    destruct (queried_split e js js' h0 l1 l2
                [EvSetInspectorValues (default [] (sandbox e js'))] Hq eq_refl H)
      as [-> [Hl ->]].
    auto.
Qed.

(** The effects a process records on the decorators. *)
Lemma Forall_polling (Q : event -> Prop) (js : string) (n : nat) :
  Q (EvPathExists js false) -> Q (EvWait 500) -> Forall Q (polling js n).
Proof.
  intros H1 H2. induction n as [|n IH]; cbn; [constructor|].
  repeat constructor; auto.
Qed.

Ltac fa :=
  repeat first
    [ apply Forall_app; split
    | apply Forall_polling; exact I
    | apply Forall_nil; exact I
    | apply Forall_cons; split; [solve [cbn; auto]|] ].

Lemma proc_ok_decorators (e : env) (name : string) (ph : pc * list event) :
  proc_ok e name ph ->
  Forall (fun ev => match ev with
                    | EvReadFile path => path = decorators_path e
                    | EvExecuteCode code m =>
                        code = Transpiled (decorators_source e) decorators_options /\
                        m = decorators_module
                    | _ => True
                    end) (snd ph).
Proof.
  destruct ph as [[| |js|js|js|] h]; cbn [proc_ok snd]; intros H.
  - subst h. fa.
  - subst h. unfold pre. fa.
  - destruct H as [_ [n ->]]. unfold pre. fa.
  - destruct H as [_ [n ->]]. unfold pre. fa.
  - destruct H as [_ [[n [w ->]] | ->]]; unfold pre; fa.
  - destruct H as [-> | [-> | [[js [n [_ [-> | ->]]]] | [js [h0 [_ [Hq ->]]]]]]];
      try (unfold pre; fa).
    destruct Hq as [[n [w ->]] | ->]; unfold pre; fa.
Qed.

End ScriptRefreshFacts.

Module ScriptRefreshSched.
Import ExportedValues ScriptRefresh ScriptRefreshHist ScriptRefreshFacts.

(** The process a refresh starts with. *)
Definition new_proc (e : env) (c : comp) : pc * list event :=
  if String.eqb (script_name c) "None" then (PDone, [EvForceUpdate])
  else (PReadDecorators, [EvSetRefreshing; EvReadFile (decorators_path e)]).

(** A refresh that has not yet passed [if (!this._scriptWatcher)]. *)
Definition pending (p : pc) : Prop := p = PReadDecorators \/ p = PExecuteDecorators.

(** A refresh that took the polling branch: it is polling, or the first
    effect after the decorators is a [pathExists]. *)
Definition poll_decided (p : pc) (h : list event) : Prop :=
  (exists js, p = PPathExists js \/ p = PWait js) \/
  exists js b, nth_error h 3 = Some (EvPathExists js b).

(** A refresh that queried right after the decorators. *)
Definition direct_decided (js : string) (h : list event) : Prop :=
  nth_error h 3 = Some (EvGetInspectorValues js).

(** [this._scriptWatcher], when set, is a watcher some refresh installed. *)
Definition watcher_recorded (c : comp) : Prop :=
  forall w, scriptWatcher c = Some w ->
  exists j pj hj js, procs c !! j = Some (pj, hj) /\ In (EvWatch js w) hj.

Lemma run_app (e : env) (c : comp) (s t : list action) :
  run e c (s ++ t) = run e (run e c s) t.
Proof. unfold run. apply fold_left_app. Qed.

Lemma run_snoc (e : env) (c : comp) (s : list action) (a : action) :
  run e c (s ++ [a]) = step e (run e c s) a.
Proof. rewrite run_app. reflexivity. Qed.

Lemma step_proc_procs (e : env) (c : comp) (p : pc) (h : list event) :
  procs (fst (step_proc e c p h)) = procs c.
Proof. destruct p; cbn; repeat case_match; reflexivity. Qed.

Lemma step_proc_hist (e : env) (c : comp) (p : pc) (h : list event) :
  exists r, snd (snd (step_proc e c p h)) = h ++ r.
Proof.
  destruct p; cbn; repeat case_match; cbn;
    first [exists []; rewrite app_nil_r; reflexivity
          | eexists; rewrite <- ?app_assoc; reflexivity].
Qed.

Lemma step_proc_watcher (e : env) (c : comp) (p : pc) (h : list event) :
  scriptWatcher (fst (step_proc e c p h)) = scriptWatcher c \/
  (scriptWatcher (fst (step_proc e c p h)) = Some (next_watcher c) /\
   exists js, In (EvWatch js (next_watcher c)) (snd (snd (step_proc e c p h)))).
Proof.
  destruct p; cbn; repeat case_match; cbn; auto.
  right. split; [reflexivity|]. eexists. rewrite !in_app_iff. cbn. auto.
Qed.

Lemma step_proc_next (e : env) (c : comp) (p : pc) (h : list event) :
  next_watcher c <= next_watcher (fst (step_proc e c p h)).
Proof. destruct p; cbn; repeat case_match; cbn; lia. Qed.

Lemma start_refresh_procs (e : env) (c : comp) :
  procs (start_refresh e c) = procs c ++ [new_proc e c].
Proof. unfold start_refresh, new_proc. cbn. repeat case_match; reflexivity. Qed.

Lemma start_refresh_watcher (e : env) (c : comp) :
  scriptWatcher (start_refresh e c) = None.
Proof. unfold start_refresh. cbn. repeat case_match; reflexivity. Qed.

Lemma start_refresh_next (e : env) (c : comp) :
  next_watcher (start_refresh e c) = next_watcher c.
Proof. unfold start_refresh. cbn. repeat case_match; reflexivity. Qed.


Lemma set_procs_watcher (c : comp) (l : list (pc * list event)) :
  scriptWatcher (set_procs c l) = scriptWatcher c.
Proof. reflexivity. Qed.

Lemma set_procs_procs (c : comp) (l : list (pc * list event)) :
  procs (set_procs c l) = l.
Proof. reflexivity. Qed.

(** How one action changes the process at index [k]: not at all, by
    resuming it, or by starting it. *)
Lemma step_cases (e : env) (c : comp) (a : action) (k : nat) (ph' : pc * list event) :
  procs (step e c a) !! k = Some ph' ->
  procs c !! k = Some ph' \/
  (a = Resume k /\ exists p h, procs c !! k = Some (p, h) /\
     ph' = snd (step_proc e c p h) /\
     step e c a = set_procs (fst (step_proc e c p h)) (<[k := ph']> (procs c))) \/
  (k = length (procs c) /\ ph' = new_proc e c /\ step e c a = start_refresh e c).
Proof.
  assert (Hstart : procs (start_refresh e c) !! k = Some ph' ->
                   procs c !! k = Some ph' \/
                   (k = length (procs c) /\ ph' = new_proc e c)).
  { rewrite start_refresh_procs, lookup_app_Some. intros [H|[Hle H]]; [auto|].
    right. destruct (k - length (procs c)) as [|m] eqn:Em; cbn in H.
    - injection H as <-. split; [lia|reflexivity].
    - try rewrite lookup_nil in H. discriminate. }
  destruct a as [|i|w ev|f|]; cbn [step]; intros H.
  - destruct (Hstart H) as [H'|[H1 H2]]; auto.
  - unfold resume in H |- *.
    destruct (procs c !! i) as [[p h]|] eqn:Ei; [|left; exact H].
    pose proof (step_proc_procs e c p h) as Hpr.
    destruct (step_proc e c p h) as [c' ph] eqn:Es. cbn [fst] in Hpr.
    rewrite set_procs_procs, Hpr in H.
    destruct (decide (i = k)) as [<-|Hne].
    + rewrite list_lookup_insert_eq in H by (eapply lookup_lt_Some; exact Ei).
      injection H as <-. right; left. split; [reflexivity|].
      exists p, h. rewrite Es. cbn. rewrite Hpr. auto.
    + rewrite list_lookup_insert_ne in H by exact Hne. left. exact H.
  - destruct (_ && _); [|left; exact H].
    destruct (Hstart H) as [H'|[H1 H2]]; auto.
  - left. exact H.
  - left. unfold componentWillUnmount, abstract_inspector_unmount in H.
    cbn in H. destruct (scriptWatcher c); exact H.
Qed.

Lemma step_watcher (e : env) (c : comp) (a : action) (w : nat) :
  scriptWatcher (step e c a) = Some w -> scriptWatcher c = Some w \/ next_watcher c <= w.
Proof.
  destruct a as [|i|w' ev|f|]; cbn [step]; intros H.
  - rewrite start_refresh_watcher in H. discriminate.
  - unfold resume in H. destruct (procs c !! i) as [[p h]|]; [|auto].
    pose proof (step_proc_watcher e c p h) as Hw.
    destruct (step_proc e c p h) as [c' ph]. cbn in Hw.
    rewrite set_procs_watcher in H.
    destruct Hw as [Hw|[Hw _]]; rewrite Hw in H; [auto|].
    injection H as <-. right. reflexivity.
  - destruct (_ && _); [|auto].
    rewrite start_refresh_watcher in H. discriminate.
  - left. exact H.
  - unfold componentWillUnmount, abstract_inspector_unmount in H.
    cbn in H. destruct (scriptWatcher c) eqn:E; cbn in H; left; congruence.
Qed.

Lemma step_next_watcher (e : env) (c : comp) (a : action) :
  next_watcher c <= next_watcher (step e c a).
Proof.
  destruct a as [|i|w ev|f|]; cbn [step].
  - rewrite start_refresh_next. reflexivity.
  - unfold resume. destruct (procs c !! i) as [[p h]|]; [|reflexivity].
    pose proof (step_proc_next e c p h) as Hn.
    destruct (step_proc e c p h) as [c' ph]. exact Hn.
  - destruct (_ && _); [rewrite start_refresh_next|]; reflexivity.
  - reflexivity.
  - unfold componentWillUnmount, abstract_inspector_unmount.
    cbn. destruct (scriptWatcher c); reflexivity.
Qed.

Lemma run_next_watcher (e : env) (c : comp) (s : list action) :
  next_watcher c <= next_watcher (run e c s).
Proof.
  unfold run. revert c. induction s as [|a s IH]; intros c; cbn; [reflexivity|].
  etransitivity; [apply (step_next_watcher e c a)|apply IH].
Qed.

Lemma step_watcher_recorded (e : env) (c : comp) (a : action) :
  watcher_recorded c -> watcher_recorded (step e c a).
Proof.
  intros HW w. destruct a as [|i|w' ev|f|]; cbn [step]; intros Hw.
  - rewrite start_refresh_watcher in Hw. discriminate.
  - unfold resume in Hw |- *.
    destruct (procs c !! i) as [[p h]|] eqn:Ei; [|exact (HW w Hw)].
    pose proof (step_proc_procs e c p h) as Hpr.
    pose proof (step_proc_hist e c p h) as [r Hr].
    pose proof (step_proc_watcher e c p h) as Hwt.
    destruct (step_proc e c p h) as [c' [p' h']]. cbn in Hpr, Hr, Hwt.
    rewrite set_procs_watcher in Hw. rewrite set_procs_procs, Hpr.
    assert (Hlt : i < length (procs c)) by (eapply lookup_lt_Some; exact Ei).
    destruct Hwt as [Hwt|[Hwt [js Hin]]]; rewrite Hwt in Hw.
    + destruct (HW w Hw) as (j & pj & hj & js & Ej & Hin).
      destruct (decide (i = j)) as [<-|Hne].
      * rewrite Ei in Ej. injection Ej as <- <-.
        exists i, p', h', js. rewrite list_lookup_insert_eq by exact Hlt.
        split; [reflexivity|]. subst h'. apply in_or_app. left. exact Hin.
      * exists j, pj, hj, js. rewrite list_lookup_insert_ne by exact Hne. auto.
    + injection Hw as <-. exists i, p', h', js.
      rewrite list_lookup_insert_eq by exact Hlt. auto.
  - destruct (_ && _); [|exact (HW w Hw)].
    rewrite start_refresh_watcher in Hw. discriminate.
  - exact (HW w Hw).
  - unfold componentWillUnmount, abstract_inspector_unmount in Hw |- *.
    cbn in Hw |- *. destruct (scriptWatcher c) eqn:E; cbn in Hw |- *; apply HW; congruence.
Qed.

Lemma run_watcher_recorded (e : env) (name : string) (present : list string)
    (s : list action) :
  watcher_recorded (run e (init name present) s).
Proof.
  unfold run.
  assert (H : watcher_recorded (init name present)) by (intros w Hw; discriminate).
  revert H. generalize (init name present) as c.
  induction s as [|a s IH]; intros c H; cbn; [exact H|].
  apply IH, step_watcher_recorded, H.
Qed.

Lemma not_in_polling (x : event) (js : string) (n : nat) :
  (forall b, x <> EvPathExists js b) -> x <> EvWait 500 -> ~ In x (polling js n).
Proof.
  intros H1 H2. induction n as [|n IH]; cbn; [auto|].
  intros [H|[H|H]]; [exact (H1 false (eq_sym H))|exact (H2 (eq_sym H))|exact (IH H)].
Qed.

Lemma queried_watch (e : env) (js js' : string) (w : nat) (h : list event) :
  queried e js' h -> In (EvWatch js w) h -> js = js'.
Proof.
  intros [[n [w' ->]] | ->] Hin; unfold pre in Hin;
    rewrite ?in_app_iff in Hin; cbn in Hin.
  - destruct Hin as [Hin|[Hin|Hin]].
    + intuition discriminate.
    + exfalso. revert Hin. apply not_in_polling; discriminate.
    + intuition (try discriminate). congruence.
  - intuition discriminate.
Qed.

(** A refresh only calls [watch] on the compiled file of the script. *)
Lemma proc_ok_watch (e : env) (name : string) (p : pc) (h : list event)
    (js : string) (w : nat) :
  proc_ok e name (p, h) -> In (EvWatch js w) h -> compiled_path e name = Some js.
Proof.
  assert (Hpre : forall n js', ~ In (EvWatch js w) (pre e ++ polling js' n)).
  { intros n js' Hin. apply in_app_iff in Hin as [Hin|Hin].
    - unfold pre in Hin. cbn in Hin. intuition discriminate.
    - revert Hin. apply not_in_polling; discriminate. }
  destruct p as [| |js'|js'|js'|]; cbn [proc_ok]; intros Hp Hin.
  - subst h. cbn in Hin. intuition discriminate.
  - subst h. exfalso. apply (Hpre 0 js). rewrite app_nil_r. exact Hin.
  - destruct Hp as [_ [n ->]]. exfalso. exact (Hpre n js' Hin).
  - destruct Hp as [_ [n ->]]. exfalso. exact (Hpre (S n) js' Hin).
  - destruct Hp as [Ec Hq]. rewrite (queried_watch e js js' w h Hq Hin). exact Ec.
  - destruct Hp as [-> | [-> | [[js' [n [_ [-> | ->]]]] | [js' [h0 [Ec [Hq ->]]]]]]].
    + cbn in Hin. intuition discriminate.
    + exfalso. apply (Hpre 0 js). rewrite app_nil_r. exact Hin.
    + exfalso. exact (Hpre n js' Hin).
    + exfalso. rewrite app_assoc in Hin. apply in_app_iff in Hin as [Hin|Hin];
        [exact (Hpre n js' Hin)|cbn in Hin; intuition discriminate].
    + apply in_app_iff in Hin as [Hin|Hin]; [|cbn in Hin; intuition discriminate].
      rewrite (queried_watch e js js' w h0 Hq Hin). exact Ec.
Qed.

Lemma queried_length (e : env) (js : string) (h : list event) :
  queried e js h -> 3 < length h.
Proof.
  intros [[n [w ->]] | ->]; unfold pre; rewrite ?length_app; cbn; lia.
Qed.

(** How resuming a refresh changes which branch of
    [if (!this._scriptWatcher)] it is recorded to have taken. *)
Lemma step_proc_decided (e : env) (c : comp) (p : pc) (h : list event) :
  proc_ok e (script_name c) (p, h) ->
  (pending (fst (snd (step_proc e c p h))) ->
     p = PReadDecorators /\ fst (step_proc e c p h) = c) /\
  (poll_decided (fst (snd (step_proc e c p h))) (snd (snd (step_proc e c p h))) ->
     poll_decided p h \/ (p = PExecuteDecorators /\ h = pre e /\ scriptWatcher c = None)) /\
  (forall js, direct_decided js (snd (snd (step_proc e c p h))) ->
     direct_decided js h \/
     (p = PExecuteDecorators /\ h = pre e /\ compiled_path e (script_name c) = Some js /\
      exists w, scriptWatcher c = Some w)).
Proof.
  unfold pending, poll_decided, direct_decided.
  destruct p as [| |js|js|js|]; cbn [proc_ok step_proc]; intros Hp.
  - subst h. cbn. split; [auto|]. split.
    + intros [[js [H|H]]|[js [b H]]]; discriminate.
    + intros js H. discriminate.
  - subst h. destruct (compiled_path e (script_name c)) as [js|] eqn:Ec;
      [destruct (scriptWatcher c) as [w|] eqn:Ew; [|destruct (isMounted c)]|];
      cbn [fst snd]; unfold pre; cbn.
    + split; [intros [H|H]; discriminate|]. split.
      * intros [[js' [H|H]]|[js' [b H]]]; discriminate.
      * intros js' H. injection H as <-. right. eauto 10.
    + split; [intros [H|H]; discriminate|]. split.
      * intros _. right. auto.
      * intros js' H. discriminate.
    + split; [intros [H|H]; discriminate|]. split.
      * intros [[js' [H|H]]|[js' [b H]]]; discriminate.
      * intros js' H. discriminate.
    + split; [intros [H|H]; discriminate|]. split.
      * intros [[js' [H|H]]|[js' [b H]]]; discriminate.
      * intros js' H. discriminate.
  - destruct Hp as [_ [n ->]].
    split; [repeat case_match; cbn; intros [Hx|Hx]; discriminate|].
    split; [intros _; left; left; eauto|].
    intros js' Hx. exfalso.
    destruct n; unfold pre in Hx; repeat case_match; cbn in Hx; discriminate.
  - destruct Hp as [_ [n ->]].
    split; [repeat case_match; cbn; intros [Hx|Hx]; discriminate|].
    split; [intros _; left; left; eauto|].
    intros js' Hx. exfalso. unfold pre in Hx. repeat case_match; cbn in Hx; discriminate.
  - destruct Hp as [_ Hq]. pose proof (queried_length e js h Hq) as Hl.
    cbn [fst snd]. split; [intros [H|H]; discriminate|].
    rewrite nth_error_app1 by exact Hl. split.
    + intros [[js' [H|H]]|H]; [discriminate|discriminate|]. left. right. exact H.
    + intros js' H. left. exact H.
  - cbn [fst snd]. split; [intros [H|H]; discriminate|]. auto.
Qed.

Section Schedules.
Variables (e : env) (name : string) (present : list string).

Local Abbreviation R s := (run e (init name present) s).

(** What the schedule tells about each refresh [i]: the action [a0]
    after the prefix [s0] started it; while it has not passed
    [if (!this._scriptWatcher)], any watcher set was installed after
    that start; and once it has, the test was made on resuming it after
    the prefix [s0 ++ a0 :: s1a], with the watcher unset for the polling
    branch and set by another refresh for the direct query. *)
Definition sched_inv (sched : list action) : Prop :=
  forall i p h, procs (R sched) !! i = Some (p, h) ->
  exists s0 a0 s1,
    sched = s0 ++ a0 :: s1 /\
    length (procs (R s0)) = i /\
    R (s0 ++ [a0]) = start_refresh e (R s0) /\
    (pending p -> forall w, scriptWatcher (R sched) = Some w ->
       next_watcher (R (s0 ++ [a0])) <= w) /\
    (poll_decided p h -> exists s1a s2,
       s1 = s1a ++ Resume i :: s2 /\
       procs (R (s0 ++ a0 :: s1a)) !! i = Some (PExecuteDecorators, pre e) /\
       scriptWatcher (R (s0 ++ a0 :: s1a)) = None) /\
    (forall js, direct_decided js h -> exists s1a s2 w j pj hj,
       s1 = s1a ++ Resume i :: s2 /\
       procs (R (s0 ++ a0 :: s1a)) !! i = Some (PExecuteDecorators, pre e) /\
       scriptWatcher (R (s0 ++ a0 :: s1a)) = Some w /\
       next_watcher (R (s0 ++ [a0])) <= w /\
       j <> i /\
       procs (R (s0 ++ a0 :: s1a)) !! j = Some (pj, hj) /\
       In (EvWatch js w) hj).

Lemma sched_inv_run (sched : list action) : sched_inv sched.
Proof.
  induction sched as [|a sched IH] using rev_ind.
  { intros i p h H. cbn in H. rewrite lookup_nil in H. discriminate. }
  intros k p' h' Hk. rewrite run_snoc in Hk.
  destruct (step_cases e (R sched) a k (p', h') Hk)
    as [Hold | [[-> [p [h [Ei [Eph Estep]]]]] | [Hlen [Eph Estep]]]].
  - (* the process is not touched *)
    destruct (IH k p' h' Hold) as (s0 & a0 & s1 & -> & Hl & Hs & Hpend & Hpoll & Hdir).
    exists s0, a0, (s1 ++ [a]).
    split; [rewrite <- app_assoc; reflexivity|]. split; [exact Hl|]. split; [exact Hs|].
    split; [|split].
    + intros Hp w Hw. rewrite run_snoc in Hw.
      destruct (step_watcher e _ a w Hw) as [Hw'|Hle]; [exact (Hpend Hp w Hw')|].
      etransitivity; [|exact Hle].
      replace (s0 ++ a0 :: s1) with ((s0 ++ [a0]) ++ s1)
        by (rewrite <- app_assoc; reflexivity).
      rewrite (run_app e (init name present) (s0 ++ [a0]) s1). apply run_next_watcher.
    + intros Hd. destruct (Hpoll Hd) as (s1a & s2 & -> & H1 & H2).
      exists s1a, (s2 ++ [a]). split; [rewrite <- app_assoc; reflexivity|auto].
    + intros js Hd. destruct (Hdir js Hd) as (s1a & s2 & w & j & pj & hj & -> & H).
      exists s1a, (s2 ++ [a]), w, j, pj, hj.
      split; [rewrite <- app_assoc; reflexivity|exact H].
  - (* the process is resumed *)
    destruct (IH k p h Ei) as (s0 & a0 & s1 & Esched & Hl & Hs & Hpend & Hpoll & Hdir).
    destruct (run_ok e name present sched) as [Hn Hf].
    pose proof (Forall_lookup_1 _ _ _ _ Hf Ei) as Hp. cbn beta in Hp.
    rewrite <- Hn in Hp.
    destruct (step_proc_decided e (R sched) p h Hp) as (Dpend & Dpoll & Ddir).
    rewrite <- Eph in Dpend, Dpoll, Ddir. cbn [fst snd] in Dpend, Dpoll, Ddir.
    exists s0, a0, (s1 ++ [Resume k]).
    split; [rewrite Esched, <- app_assoc; reflexivity|]. split; [exact Hl|].
    split; [exact Hs|]. split; [|split].
    + intros Hp' w Hw. destruct (Dpend Hp') as [-> Hc].
      rewrite run_snoc, Estep, set_procs_watcher, Hc in Hw.
      exact (Hpend (or_introl eq_refl) w Hw).
    + intros Hd. destruct (Dpoll Hd) as [Hd'|(-> & -> & Hw)].
      * destruct (Hpoll Hd') as (s1a & s2 & -> & H1 & H2).
        exists s1a, (s2 ++ [Resume k]). split; [rewrite <- app_assoc; reflexivity|auto].
      * exists s1, []. split; [reflexivity|]. rewrite <- Esched. auto.
    + intros js Hd. destruct (Ddir js Hd) as [Hd'|(-> & -> & Ec & w & Hw)].
      * destruct (Hdir js Hd') as (s1a & s2 & w & j & pj & hj & -> & H).
        exists s1a, (s2 ++ [Resume k]), w, j, pj, hj.
        split; [rewrite <- app_assoc; reflexivity|exact H].
      * destruct (run_watcher_recorded e name present sched w Hw)
          as (j & pj & hj & js' & Ej & Hin).
        pose proof (proc_ok_watch e name pj hj js' w (Forall_lookup_1 _ _ _ _ Hf Ej) Hin)
          as Ec'.
        rewrite Hn in Ec. rewrite Ec in Ec'. injection Ec' as <-.
        exists s1, [], w, j, pj, hj. rewrite <- Esched.
        split; [reflexivity|]. split; [exact Ei|]. split; [exact Hw|].
        split; [exact (Hpend (or_intror eq_refl) w Hw)|].
        split; [|split; [exact Ej|exact Hin]].
        intros ->. rewrite Ei in Ej. injection Ej as <- <-.
        unfold pre in Hin. cbn in Hin. intuition discriminate.
  - (* the process is started *)
    exists sched, a, []. split; [reflexivity|]. split; [symmetry; exact Hlen|].
    split; [rewrite run_snoc; exact Estep|].
    assert (Hw : scriptWatcher (R (sched ++ [a])) = None)
      by (rewrite run_snoc, Estep; apply start_refresh_watcher).
    unfold new_proc in Eph. unfold pending, poll_decided, direct_decided.
    split; [intros _ w; rewrite Hw; discriminate|].
    destruct (String.eqb _ _); injection Eph as -> ->; cbn; split;
      try (intros [[js [H|H]]|[js [b H]]]; discriminate);
      intros js H; discriminate.
Qed.

End Schedules.

End ScriptRefreshSched.

Module ScriptRefreshClaims.
Import ExportedValues ScriptRefresh ScriptRefreshHist ScriptRefreshFacts ScriptRefreshSched.

(** C3 (counterexample). Two overlapping refreshes of a script whose
    compiled file exists: the first installs the watcher, and the second,
    finding [this._scriptWatcher] set once its decorators are executed,
    queries the sandbox without waiting for the file and without
    installing a watcher of its own. *)
Lemma refresh_without_watch_counterexample :
  procs (run e0 (init name0 [js0]) sched_race) !! 1 =
    Some (PGetValues js0, pre e0 ++ [EvGetInspectorValues js0]) /\
  Forall (fun ev => match ev with
                    | EvPathExists _ _ | EvWatch _ _ => False
                    | _ => True
                    end) (pre e0).
Proof.
  split.
  - vm_compute. reflexivity.
  - unfold pre. repeat constructor.
Qed.

(** C3 (amended). In every interleaving of refreshes, file events,
    unmounting and resumptions, a refresh [i] queries the sandbox
    ([GetInspectorValues]) only on the compiled file [js] of the script.
    The schedule splits at the action [a0] that started [i] and at the
    resumption of [i] that made the test [if (!this._scriptWatcher)],
    once its decorators were read and executed. Either the watcher was
    unset there, and [i] polled ([pathExists] false, [Wait(500)],
    repeated) until [pathExists] reported the file, installed a watcher
    on it, and then queried; or the watcher was set there, and [i]
    queried right away: that watcher was installed on [js] by another
    refresh, after [i] had started. The only step after the query
    stores its result [?? []]. Every watcher not closed restarts the
    refresh on a ["change"] event. *)
Theorem refresh_query_order (e : env) (name : string) (present : list string)
    (sched : list action) (i : nat) (p : pc) (l1 l2 : list event) (js : string) :
  procs (run e (init name present) sched) !! i =
    Some (p, l1 ++ EvGetInspectorValues js :: l2) ->
  compiled_path e name = Some js /\
  (exists s0 a0 s1 s2,
     sched = s0 ++ a0 :: s1 ++ Resume i :: s2 /\
     length (procs (run e (init name present) s0)) = i /\
     run e (init name present) (s0 ++ [a0]) = start_refresh e (run e (init name present) s0) /\
     procs (run e (init name present) (s0 ++ a0 :: s1)) !! i =
       Some (PExecuteDecorators, pre e) /\
     (((exists n w, l1 = pre e ++ polling js n ++ [EvPathExists js true; EvWatch js w]) /\
       scriptWatcher (run e (init name present) (s0 ++ a0 :: s1)) = None) \/
      (l1 = pre e /\
       exists w j pj hj,
         scriptWatcher (run e (init name present) (s0 ++ a0 :: s1)) = Some w /\
         next_watcher (run e (init name present) (s0 ++ [a0])) <= w /\
         j <> i /\
         procs (run e (init name present) (s0 ++ a0 :: s1)) !! j = Some (pj, hj) /\
         In (EvWatch js w) hj))) /\
  (l2 = [] \/ l2 = [EvSetInspectorValues (default [] (sandbox e js))]) /\
  (forall w, In w (open_watchers (run e (init name present) sched)) ->
     step e (run e (init name present) sched) (FsEvent w "change") =
     start_refresh e (run e (init name present) sched)).
Proof.
  intros Hi. destruct (run_ok e name present sched) as [_ Hf].
  pose proof (Forall_lookup_1 _ _ _ _ Hf Hi) as Hp.
  destruct (proc_ok_query e name p l1 l2 js Hp) as [Ec [Hl Hr]].
  destruct (sched_inv_run e name present sched i p _ Hi)
    as (s0 & a0 & s1 & -> & Hlen & Hs & _ & Hpoll & Hdir).
  split; [exact Ec|]. split; [|split; [exact Hr|]].
  - destruct Hl as [(n & w & ->) | ->].
    + destruct Hpoll as (s1a & s2 & -> & H1 & H2).
      { right. exists js. destruct n; unfold pre; cbn; eauto. }
      exists s0, a0, s1a, s2. repeat split; try assumption.
      left. split; [eauto|exact H2].
    + destruct (Hdir js) as (s1a & s2 & w & j & pj & hj & -> & H1 & H2 & H3 & H4 & H5 & H6).
      { unfold direct_decided, pre. reflexivity. }
      exists s0, a0, s1a, s2. repeat split; try assumption.
      right. split; [reflexivity|]. exists w, j, pj, hj. auto.
  - intros w Hw. cbn.
    assert (Hb : existsb (Nat.eqb w) (open_watchers (run e (init name present)
                                                      (s0 ++ a0 :: s1))) = true).
    { apply existsb_exists. exists w. split; [exact Hw|apply Nat.eqb_refl]. }
    rewrite Hb. reflexivity.
Qed.

Lemma refresh_query_order_witness :
  procs (run e0 (init name0 [js0]) sched_race) !! 1 =
    Some (PGetValues js0, pre e0 ++ EvGetInspectorValues js0 :: []) /\
  compiled_path e0 name0 = Some js0 /\
  exists s0 a0 s1 s2 w,
    sched_race = s0 ++ a0 :: s1 ++ Resume 1 :: s2 /\
    scriptWatcher (run e0 (init name0 [js0]) (s0 ++ a0 :: s1)) = Some w /\
    next_watcher (run e0 (init name0 [js0]) (s0 ++ [a0])) <= w.
Proof.
  assert (Hi : procs (run e0 (init name0 [js0]) sched_race) !! 1 =
    Some (PGetValues js0, pre e0 ++ EvGetInspectorValues js0 :: []))
    by (vm_compute; reflexivity).
  split; [exact Hi|].
  destruct (refresh_query_order e0 name0 [js0] sched_race 1 (PGetValues js0) (pre e0) []
              js0 Hi) as [Ec [(s0 & a0 & s1 & s2 & Es & _ & _ & _ & Hb) _]].
  split; [exact Ec|]. exists s0, a0, s1, s2.
  destruct Hb as [[(n & w & Hl) _] | [_ (w & j & pj & hj & Hw & Hle & _)]].
  - exfalso. apply (f_equal (@length event)) in Hl.
    rewrite !length_app in Hl. cbn in Hl. lia.
  - exists w. auto.
Defined.

(** C8. Whatever the script and the interleaving, every file a refresh
    reads is [assets/scripts/decorators.ts] under the application path,
    and every code it executes in the sandbox is the transpilation of
    that file's content with module kind None, target ES5 and
    experimental decorators, under the module name
    ["__editor__decorators__.js"]. *)
Theorem decorators_fixed (e : env) (name : string) (present : list string)
    (sched : list action) (i : nat) (p : pc) (h : list event) :
  procs (run e (init name present) sched) !! i = Some (p, h) ->
  (forall path, In (EvReadFile path) h ->
     path = Path.join [app_path e; "assets"; "scripts"; "decorators.ts"]) /\
  (forall code m, In (EvExecuteCode code m) h ->
     code = Transpiled (decorators_source e) (mk_ts_options ModuleNone ES5 true) /\
     m = "__editor__decorators__.js"%string).
Proof.
  intros Hi. destruct (run_ok e name present sched) as [_ Hf].
  pose proof (proc_ok_decorators e name (p, h) (Forall_lookup_1 _ _ _ _ Hf Hi)) as Hd.
  cbn [snd] in Hd. rewrite List.Forall_forall in Hd. split.
  - intros path Hin. exact (Hd _ Hin).
  - intros code m Hin. exact (Hd _ Hin).
Qed.

Lemma decorators_fixed_witness :
  procs (run e0 (init name0 []) sched_poll) !! 0 = Some (PDone, hist_poll) /\
  ((forall path, In (EvReadFile path) hist_poll ->
      path = Path.join [app_path e0; "assets"; "scripts"; "decorators.ts"]) /\
   (forall code m, In (EvExecuteCode code m) hist_poll ->
      code = Transpiled (decorators_source e0) (mk_ts_options ModuleNone ES5 true) /\
      m = "__editor__decorators__.js"%string)).
Proof.
  assert (Hi : procs (run e0 (init name0 []) sched_poll) !! 0 = Some (PDone, hist_poll))
    by (vm_compute; reflexivity).
  split; [exact Hi|].
  exact (decorators_fixed e0 name0 [] sched_poll 0 PDone hist_poll Hi).
Defined.

(** C10 (divergence). Two refreshes both pass [if (!this._scriptWatcher)]
    while the compiled file is missing; when it appears, each installs a
    watcher and the second overwrites [this._scriptWatcher]. After the
    unmount, watcher 0 is still open, and a ["change"] event on it starts
    a new refresh of the unmounted inspector. *)
Theorem watcher_outlives_unmount :
  isMounted (run e0 (init name0 []) sched_leak) = false /\
  scriptWatcher (run e0 (init name0 []) sched_leak) = Some 1 /\
  open_watchers (run e0 (init name0 []) sched_leak) = [0] /\
  length (procs (step e0 (run e0 (init name0 []) sched_leak) (FsEvent 0 "change")))
    = S (length (procs (run e0 (init name0 []) sched_leak))).
Proof.
  vm_compute. repeat split.
Qed.

End ScriptRefreshClaims.

(* ================================================================== *)
(** * Further properties of the embedded code *)

Module VideoMoveExtra.
Import VideoMove VideoMoveFacts.

Lemma is_video_set_name (t : texture) (n : string) :
  is_video (set_name t n) = is_video t.
Proof. reflexivity. Qed.

(** [isFileUsed] finds a listed video texture with the looked-up name. *)
Lemma isFileUsed_found (ed : editor) (sc : scene) (path : string) (t : nat) :
  ed_scene ed = Some sc -> In t (textures sc) -> is_video (ed_heap ed t) = true ->
  name (ed_heap ed t) = Js.replace path (assets_prefix ed) "" ->
  isFileUsed ed path = Ok true.
Proof.
  intros Hs Hin Hv Hn. unfold isFileUsed. rewrite Hs.
  destruct (find _ (textures sc)) eqn:Ef; [reflexivity|].
  pose proof (find_none _ _ Ef t Hin) as Hf. cbn beta in Hf.
  rewrite Hv, Hn, String.eqb_refl in Hf. discriminate Hf.
Qed.

(** [moveFile] followed by [isFileUsed]: once a video texture at [from]
    is moved to [to], the handler reports [to] as used, whatever the
    form of [to] (both compute [to.replace(join(dir, "/"), "")]). *)
Theorem moveFile_then_isFileUsed (ed : editor) (sc : scene) (from to : string)
    (t : nat) :
  ed_scene ed = Some sc -> In t (textures sc) -> is_video (ed_heap ed t) = true ->
  Path.join [assetsDirectory ed; name (ed_heap ed t)] = from ->
  exists ed', moveFile ed from to = Ok ed' /\ isFileUsed ed' to = Ok true.
Proof.
  intros Hs Hin Hv Hp.
  destruct (moveFile_heap ed sc from to t Hs) as (ed' & Hm & Hsc & Hd & Hh).
  exists ed'. split; [exact Hm|].
  apply (isFileUsed_found ed' sc to t); [rewrite Hsc; exact Hs|exact Hin| |].
  - rewrite Hh, (existsb_In _ _ Hin), Hv, Hp, String.eqb_refl. exact Hv.
  - rewrite Hh, (existsb_In _ _ Hin), Hv, Hp, String.eqb_refl.
    unfold assets_prefix. rewrite Hd. reflexivity.
Qed.

Lemma moveFile_then_isFileUsed_witness :
  ed_scene (mk_editor (Some (mk_scene [0])) "/p/assets"
              (fun _ => mk_texture VideoTexture "v.mp4")) = Some (mk_scene [0]) /\
  In 0 (textures (mk_scene [0])) /\
  is_video (ed_heap (mk_editor (Some (mk_scene [0])) "/p/assets"
              (fun _ => mk_texture VideoTexture "v.mp4")) 0) = true /\
  Path.join ["/p/assets"; "v.mp4"] = "/p/assets/v.mp4"%string /\
  exists ed', moveFile (mk_editor (Some (mk_scene [0])) "/p/assets"
                          (fun _ => mk_texture VideoTexture "v.mp4"))
                "/p/assets/v.mp4" "/p/assets/clips/v.mp4" = Ok ed' /\
              isFileUsed ed' "/p/assets/clips/v.mp4" = Ok true.
Proof.
  split; [reflexivity|]. split; [left; reflexivity|].
  split; [reflexivity|]. split; [vm_compute; reflexivity|].
  apply (moveFile_then_isFileUsed
           (mk_editor (Some (mk_scene [0])) "/p/assets"
              (fun _ => mk_texture VideoTexture "v.mp4"))
           (mk_scene [0]) "/p/assets/v.mp4" "/p/assets/clips/v.mp4" 0);
    [reflexivity|left; reflexivity|reflexivity|vm_compute; reflexivity].
Defined.

(** Repeating a move changes nothing: a second [moveFile from to] leaves
    every texture object as the first one left it. *)
Theorem moveFile_idempotent (ed ed1 : editor) (sc : scene) (from to : string) :
  ed_scene ed = Some sc -> moveFile ed from to = Ok ed1 ->
  exists ed2, moveFile ed1 from to = Ok ed2 /\ ed_scene ed2 = ed_scene ed1 /\
    assetsDirectory ed2 = assetsDirectory ed1 /\
    forall t, ed_heap ed2 t = ed_heap ed1 t.
Proof.
  intros Hs Hm1.
  assert (Hs1 : ed_scene ed1 = Some sc).
  { unfold moveFile in Hm1. rewrite Hs in Hm1. injection Hm1 as <-. exact Hs. }
  unfold moveFile. rewrite Hs1.
  eexists; split; [reflexivity|]. cbn [ed_scene assetsDirectory ed_heap set_heap].
  split; [congruence|]. split; [reflexivity|]. intros t.
  pose proof (moveFile_heap ed sc from to t Hs) as (ed1' & Hm & Hsc & Hd & Hh).
  rewrite Hm1 in Hm. injection Hm as <-.
  rewrite fold_move_one, existsb_filter_video, Hh, Hd.
  destruct (existsb (Nat.eqb t) (textures sc)); cbn [andb]; [|reflexivity].
  destruct (is_video (ed_heap ed t)) eqn:Ev; cbn [andb]; [|rewrite Ev; reflexivity].
  destruct (String.eqb (Path.join [assetsDirectory ed; name (ed_heap ed t)]) from) eqn:Ep.
  - rewrite is_video_set_name, Ev. cbn [andb].
    destruct (String.eqb (Path.join [assetsDirectory ed;
      name (set_name (ed_heap ed t) (Js.replace to (assets_prefix ed) ""))]) from);
      reflexivity.
  - rewrite Ev, Ep. reflexivity.
Qed.

Lemma moveFile_idempotent_witness :
  ed_scene (mk_editor (Some (mk_scene [0; 0])) "/p/assets"
              (fun _ => mk_texture VideoTexture "v.mp4")) = Some (mk_scene [0; 0]) /\
  moveFile (mk_editor (Some (mk_scene [0; 0])) "/p/assets"
              (fun _ => mk_texture VideoTexture "v.mp4"))
    "/p/assets/v.mp4" "/p/assets/clips/v.mp4" =
  Ok (mk_editor (Some (mk_scene [0; 0])) "/p/assets"
        (fold_left (move_one "/p/assets" "/p/assets/v.mp4" "/p/assets/clips/v.mp4")
           [0; 0] (fun _ => mk_texture VideoTexture "v.mp4"))) /\
  exists ed2, moveFile (mk_editor (Some (mk_scene [0; 0])) "/p/assets"
        (fold_left (move_one "/p/assets" "/p/assets/v.mp4" "/p/assets/clips/v.mp4")
           [0; 0] (fun _ => mk_texture VideoTexture "v.mp4")))
     "/p/assets/v.mp4" "/p/assets/clips/v.mp4" = Ok ed2 /\
   ed_scene ed2 = Some (mk_scene [0; 0]) /\ assetsDirectory ed2 = "/p/assets"%string /\
   forall t, ed_heap ed2 t =
     fold_left (move_one "/p/assets" "/p/assets/v.mp4" "/p/assets/clips/v.mp4")
       [0; 0] (fun _ => mk_texture VideoTexture "v.mp4") t.
Proof.
  assert (H1 : moveFile (mk_editor (Some (mk_scene [0; 0])) "/p/assets"
              (fun _ => mk_texture VideoTexture "v.mp4"))
    "/p/assets/v.mp4" "/p/assets/clips/v.mp4" =
  Ok (mk_editor (Some (mk_scene [0; 0])) "/p/assets"
        (fold_left (move_one "/p/assets" "/p/assets/v.mp4" "/p/assets/clips/v.mp4")
           [0; 0] (fun _ => mk_texture VideoTexture "v.mp4")))) by reflexivity.
  split; [reflexivity|]. split; [exact H1|].
  exact (moveFile_idempotent (mk_editor (Some (mk_scene [0; 0])) "/p/assets"
            (fun _ => mk_texture VideoTexture "v.mp4")) _ (mk_scene [0; 0]) _ _
            eq_refl H1).
Defined.

End VideoMoveExtra.

Module ExportedValuesExtra.
Import ExportedValues ExportedValuesClaims ExportedValuesChange.

Lemma get_set_field_ne (fs : property) (k k' : string) (v : jsval) :
  k' <> k -> get_field (set_field fs k v) k' = get_field fs k'.
Proof.
  intros Hne. induction fs as [|[k0 v0] fs IH]; simpl.
  - apply String.eqb_neq in Hne. rewrite String.eqb_sym, Hne. reflexivity.
  - destruct (String.eqb k0 k) eqn:E; simpl.
    + apply String.eqb_eq in E. subst k0.
      apply String.eqb_neq in Hne. rewrite String.eqb_sym, Hne. reflexivity.
    + destruct (String.eqb k0 k'); [reflexivity|exact IH].
Qed.

Lemma stored_defined (m : properties) (k : string) :
  nullish (stored_value m k) = false ->
  exists p, m !! k = Some p /\ nullish (get_field p "value") = false.
Proof.
  unfold stored_value. destruct (m !! k) as [p|]; [|discriminate]. eauto.
Qed.

(** After the loop, every exported key holds a value. *)
Lemma fold_render_defined (ivs : list inspector_value) (m : properties)
    (ws : list widget) (iv : inspector_value) :
  In iv ivs ->
  nullish (stored_value (fst (fold_left render_one ivs (m, ws))) (propertyKey iv))
    = false.
Proof.
  intros Hin. rewrite fold_render_stored.
  destruct (find (fun iv' => String.eqb (propertyKey iv') (propertyKey iv)) ivs)
    as [iv'|] eqn:Ef.
  - destruct (nullish (stored_value m (propertyKey iv))) eqn:Hn;
      [apply value_rhs_defined|exact Hn].
  - pose proof (find_none _ _ Ef iv Hin) as Hf. cbn beta in Hf.
    rewrite String.eqb_refl in Hf. discriminate Hf.
Qed.

(** A loop over keys that all hold a value changes no property. *)
Lemma fold_render_fixed (ivs : list inspector_value) (m : properties)
    (ws : list widget) :
  (forall iv, In iv ivs -> nullish (stored_value m (propertyKey iv)) = false) ->
  fold_left render_one ivs (m, ws) = (m, ws ++ map widget_of ivs).
Proof.
  revert ws. induction ivs as [|iv ivs IH]; intros ws Hd; cbn [fold_left map].
  - rewrite app_nil_r. reflexivity.
  - destruct (stored_defined m (propertyKey iv) (Hd iv (or_introl eq_refl)))
      as [p [Hp Hv]].
    assert (Hr : render_one (m, ws) iv = (m, ws ++ [widget_of iv])).
    { unfold render_one. cbv beta iota zeta. rewrite Hp. cbn [default]. unfold id. rewrite Hv.
      rewrite insert_id by exact Hp. reflexivity. }
    rewrite Hr, IH, <- app_assoc; [reflexivity|].
    intros iv' Hin. apply Hd. right. exact Hin.
Qed.

(** The loop does not touch a key no exported value has. *)
Lemma fold_render_other (ivs : list inspector_value) (m : properties)
    (ws : list widget) (k : string) :
  (forall iv, In iv ivs -> propertyKey iv <> k) ->
  fst (fold_left render_one ivs (m, ws)) !! k = m !! k.
Proof.
  revert m ws. induction ivs as [|iv ivs IH]; intros m ws Hk; cbn [fold_left];
    [reflexivity|].
  destruct (render_one (m, ws) iv) as [m1 ws1] eqn:Er.
  rewrite IH by (intros iv' Hin; apply Hk; right; exact Hin).
  unfold render_one in Er. injection Er as <- _.
  apply lookup_insert_ne. apply Hk. left. reflexivity.
Qed.

Lemma fold_render_existing (ivs : list inspector_value) (m : properties)
    (ws : list widget) (k : string) (p : property) :
  m !! k = Some p ->
  exists p', fst (fold_left render_one ivs (m, ws)) !! k = Some p' /\
             only_value_set p p'.
Proof.
  revert m ws p. induction ivs as [|iv ivs IH]; intros m ws p Hp; cbn [fold_left].
  - exists p. split; [exact Hp|]. split; auto.
  - assert (H1 : exists p1, fst (render_one (m, ws) iv) !! k = Some p1 /\
                            only_value_set p p1).
    { unfold render_one. cbv beta iota zeta. cbn [fst].
      destruct (String.eqb (propertyKey iv) k) eqn:E.
      - apply String.eqb_eq in E. subst k. rewrite lookup_insert_eq, Hp.
        cbn [default]. unfold id. eexists; split; [reflexivity|].
        destruct (nullish (get_field p "value")) eqn:Hn.
        + split; [|intros Hc; congruence]. intros f Hf. apply get_set_field_ne, Hf.
        + split; auto.
      - apply String.eqb_neq in E. rewrite lookup_insert_ne by exact E.
        exists p. split; [exact Hp|split; auto]. }
    destruct H1 as [p1 [Hp1 [Hf1 Hv1]]].
    destruct (render_one (m, ws) iv) as [m1 ws1]. cbn [fst] in Hp1.
    destruct (IH m1 ws1 p1 Hp1) as [p2 [Hp2 [Hf2 Hv2]]].
    exists p2. split; [exact Hp2|]. split.
    + intros f Hf. rewrite Hf2, Hf1 by exact Hf. reflexivity.
    + intros Hn. rewrite Hv2, Hv1 by (rewrite ?Hv1; exact Hn). reflexivity.
Qed.

End ExportedValuesExtra.

Module ExportedValuesExtraClaims.
Import ExportedValues ExportedValuesClaims ExportedValuesChange ExportedValuesExtra.

Lemma getInspectorValues_cases (name : string) (ivs : list inspector_value)
    (props : option properties) (w : option (list widget))
    (props1 : option properties) :
  getInspectorValues name ivs props = (w, props1) ->
  (w = None /\ props1 = props) \/
  (exists ws m, w = Some ws /\ props1 = Some m /\
     fold_left render_one ivs (default ∅ props, []) = (m, ws)).
Proof.
  unfold getInspectorValues. destruct (String.eqb name "None").
  - intros H. injection H as <- <-. left. auto.
  - destruct ivs as [|iv ivs].
    + intros H. injection H as <- <-. left. auto.
    + destruct (fold_left render_one (iv :: ivs) (default ∅ props, [])) as [m ws] eqn:Ef.
      intros H. injection H as <- <-. right. exists ws, m. auto.
Qed.

(** Rendering is idempotent: running [_getInspectorValues] again on the
    properties it produced renders the same widgets and changes no
    stored property. *)
Theorem getInspectorValues_idempotent (name : string) (ivs : list inspector_value)
    (props : option properties) (w : option (list widget))
    (props1 : option properties) :
  getInspectorValues name ivs props = (w, props1) ->
  getInspectorValues name ivs props1 = (w, props1).
Proof.
  intros H. pose proof H as H0. apply getInspectorValues_cases in H0.
  destruct H0 as [[-> ->] | (ws & m & -> & -> & Ef)]; [exact H|].
  revert H. unfold getInspectorValues.
  destruct (String.eqb name "None"); [intros H; discriminate H|].
  destruct ivs as [|iv0 ivs0]; [intros H; discriminate H|]. intros _.
  cbn [default from_option].
  pose proof (fold_render_widgets (iv0 :: ivs0) (default ∅ props) []) as Hw.
  rewrite Ef in Hw. cbn [snd] in Hw. subst ws.
  rewrite fold_render_fixed; [reflexivity|].
  intros iv Hin. pose proof (fold_render_defined (iv0 :: ivs0) (default ∅ props) [] iv Hin) as Hd.
  rewrite Ef in Hd. exact Hd.
Qed.

Lemma getInspectorValues_idempotent_witness :
  getInspectorValues "scripts/player.ts"
    [mk_iv TNumber "speed" None JUndefined; mk_iv TString "label" (Some "Label") (JString "hi")]
    None =
  (Some [mk_widget InspectorNumber "speed" "speed"; mk_widget InspectorString "Label" "label"],
   Some (<["label" := [("type", JString "string"); ("value", JString "hi")]]>
          (<["speed" := [("type", JString "number"); ("value", num 0)]]> ∅))) /\
  getInspectorValues "scripts/player.ts"
    [mk_iv TNumber "speed" None JUndefined; mk_iv TString "label" (Some "Label") (JString "hi")]
    (Some (<["label" := [("type", JString "string"); ("value", JString "hi")]]>
          (<["speed" := [("type", JString "number"); ("value", num 0)]]> ∅))) =
  (Some [mk_widget InspectorNumber "speed" "speed"; mk_widget InspectorString "Label" "label"],
   Some (<["label" := [("type", JString "string"); ("value", JString "hi")]]>
          (<["speed" := [("type", JString "number"); ("value", num 0)]]> ∅))).
Proof.
  assert (H : getInspectorValues "scripts/player.ts"
    [mk_iv TNumber "speed" None JUndefined; mk_iv TString "label" (Some "Label") (JString "hi")]
    None =
  (Some [mk_widget InspectorNumber "speed" "speed"; mk_widget InspectorString "Label" "label"],
   Some (<["label" := [("type", JString "string"); ("value", JString "hi")]]>
          (<["speed" := [("type", JString "number"); ("value", num 0)]]> ∅))))
    by reflexivity.
  split; [exact H|]. exact (getInspectorValues_idempotent _ _ _ _ _ H).
Defined.

(** After a render, every exported key holds a property object whose
    [value] is neither [undefined] nor [null], so no widget is bound to a
    missing value. *)
Theorem getInspectorValues_values_defined (name : string)
    (ivs : list inspector_value) (props : option properties)
    (ws : list widget) (m : properties) :
  getInspectorValues name ivs props = (Some ws, Some m) ->
  forall iv, In iv ivs ->
    exists p, m !! propertyKey iv = Some p /\ nullish (get_field p "value") = false.
Proof.
  intros H iv Hin. apply getInspectorValues_cases in H.
  destruct H as [[Hc _] | (ws' & m' & Hw & Hm & Ef)]; [discriminate Hc|].
  injection Hm as <-. apply stored_defined.
  pose proof (fold_render_defined ivs (default ∅ props) [] iv Hin) as Hd.
  rewrite Ef in Hd. exact Hd.
Qed.

Lemma getInspectorValues_values_defined_witness :
  getInspectorValues "scripts/player.ts" [mk_iv TColor3 "tint" None JUndefined] None =
    (Some [mk_widget InspectorColor "tint" "tint"],
     Some (<["tint" := [("type", JString "Color3");
                        ("value", JObject [("r", num 0); ("g", num 0); ("b", num 0);
                                           ("a", JUndefined)])]]> ∅)) /\
  (forall iv, In iv [mk_iv TColor3 "tint" None JUndefined] ->
    exists p, (<["tint" := [("type", JString "Color3");
                        ("value", JObject [("r", num 0); ("g", num 0); ("b", num 0);
                                           ("a", JUndefined)])]]> ∅ : properties)
                !! propertyKey iv = Some p /\
              nullish (get_field p "value") = false).
Proof.
  assert (H : getInspectorValues "scripts/player.ts" [mk_iv TColor3 "tint" None JUndefined]
                None =
    (Some [mk_widget InspectorColor "tint" "tint"],
     Some (<["tint" := [("type", JString "Color3");
                        ("value", JObject [("r", num 0); ("g", num 0); ("b", num 0);
                                           ("a", JUndefined)])]]> ∅))) by reflexivity.
  split; [exact H|]. exact (getInspectorValues_values_defined _ _ _ _ _ H).
Defined.

(** A stored property whose key no exported value has is left exactly as
    it was. *)
Theorem getInspectorValues_other_keys (name : string) (ivs : list inspector_value)
    (props : option properties) (w : option (list widget)) (m : properties)
    (k : string) :
  getInspectorValues name ivs props = (w, Some m) ->
  (forall iv, In iv ivs -> propertyKey iv <> k) ->
  m !! k = default ∅ props !! k.
Proof.
  intros H Hk. apply getInspectorValues_cases in H.
  destruct H as [[_ <-] | (ws & m' & _ & Hm & Ef)]; [reflexivity|].
  injection Hm as <-.
  pose proof (fold_render_other ivs (default ∅ props) [] k Hk) as Ho.
  rewrite Ef in Ho. exact Ho.
Qed.

Lemma getInspectorValues_other_keys_witness :
  getInspectorValues "scripts/player.ts" [mk_iv TNumber "speed" None JUndefined]
    (Some (<["old" := [("type", JString "string")]]> ∅)) =
    (Some [mk_widget InspectorNumber "speed" "speed"],
     Some (<["speed" := [("type", JString "number"); ("value", num 0)]]>
             (<["old" := [("type", JString "string")]]> ∅))) /\
  (forall iv, In iv [mk_iv TNumber "speed" None JUndefined] -> propertyKey iv <> "old"%string) /\
  (<["speed" := [("type", JString "number"); ("value", num 0)]]>
     (<["old" := [("type", JString "string")]]> ∅) : properties) !! "old"%string =
  default ∅ (Some (<["old" := [("type", JString "string")]]> ∅ : properties)) !! "old"%string.
Proof.
  assert (H : getInspectorValues "scripts/player.ts" [mk_iv TNumber "speed" None JUndefined]
    (Some (<["old" := [("type", JString "string")]]> ∅)) =
    (Some [mk_widget InspectorNumber "speed" "speed"],
     Some (<["speed" := [("type", JString "number"); ("value", num 0)]]>
             (<["old" := [("type", JString "string")]]> ∅)))) by reflexivity.
  assert (Hk : forall iv, In iv [mk_iv TNumber "speed" None JUndefined] ->
                          propertyKey iv <> "old"%string).
  { intros iv [<-|[]]. cbn. discriminate. }
  split; [exact H|]. split; [exact Hk|].
  exact (getInspectorValues_other_keys _ _ _ _ _ _ H Hk).
Defined.

(** A property object stored before the render keeps every field but
    [value], in particular its [type] even when the script now declares
    another type; its [value] is only written when it is nullish. *)
Theorem getInspectorValues_existing_property (name : string)
    (ivs : list inspector_value) (props : option properties)
    (w : option (list widget)) (m : properties) (k : string) (p : property) :
  getInspectorValues name ivs props = (w, Some m) ->
  default ∅ props !! k = Some p ->
  exists p', m !! k = Some p' /\
    (forall f, f <> "value"%string -> get_field p' f = get_field p f) /\
    (nullish (get_field p "value") = false -> p' = p).
Proof.
  intros H Hp. apply getInspectorValues_cases in H.
  destruct H as [[_ <-] | (ws & m' & _ & Hm & Ef)].
  - exists p. split; [exact Hp|]. split; auto.
  - injection Hm as <-.
    destruct (fold_render_existing ivs (default ∅ props) [] k p Hp) as [p' [Hp' Hc]].
    rewrite Ef in Hp'. exists p'. split; [exact Hp'|exact Hc].
Qed.

Lemma getInspectorValues_existing_property_witness :
  getInspectorValues "scripts/player.ts" [mk_iv TNumber "speed" None JUndefined]
    (Some (<["speed" := [("type", JString "string"); ("value", JString "fast")]]> ∅)) =
    (Some [mk_widget InspectorNumber "speed" "speed"],
     Some (<["speed" := [("type", JString "string"); ("value", JString "fast")]]> ∅)) /\
  exists p', (<["speed" := [("type", JString "string"); ("value", JString "fast")]]> ∅
              : properties) !! "speed"%string = Some p' /\
    (forall f, f <> "value"%string ->
       get_field p' f = get_field [("type", JString "string"); ("value", JString "fast")] f) /\
    (nullish (get_field [("type", JString "string"); ("value", JString "fast")] "value")
       = false -> p' = [("type", JString "string"); ("value", JString "fast")]).
Proof.
  assert (H : getInspectorValues "scripts/player.ts" [mk_iv TNumber "speed" None JUndefined]
    (Some (<["speed" := [("type", JString "string"); ("value", JString "fast")]]> ∅)) =
    (Some [mk_widget InspectorNumber "speed" "speed"],
     Some (<["speed" := [("type", JString "string"); ("value", JString "fast")]]> ∅)))
    by reflexivity.
  split; [exact H|].
  exact (getInspectorValues_existing_property _ _ _ _ _ "speed" _ H eq_refl).
Defined.

(** A property created by the render is the object
    [{ type: <declared type>, value: <initial value> }] of the first
    exported value with that key. *)
Theorem getInspectorValues_new_property (name : string)
    (ivs pre post : list inspector_value) (iv : inspector_value)
    (props : option properties) (ws : list widget) (m : properties) :
  getInspectorValues name ivs props = (Some ws, Some m) ->
  default ∅ props !! propertyKey iv = None ->
  ivs = pre ++ iv :: post ->
  (forall iv', In iv' pre -> propertyKey iv' <> propertyKey iv) ->
  m !! propertyKey iv =
    Some [("type", JString (type_name (iv_type iv))); ("value", value_rhs iv JUndefined)].
Proof.
  intros H Hnone -> Hpre. apply getInspectorValues_cases in H.
  destruct H as [[Hc _] | (ws' & m' & _ & Hm & Ef)]; [discriminate Hc|].
  injection Hm as <-. rewrite fold_left_app in Ef. cbn [fold_left] in Ef.
  pose proof (fold_render_other pre (default ∅ props) [] (propertyKey iv) Hpre) as Ho.
  destruct (fold_left render_one pre (default ∅ props, [])) as [m1 ws1].
  cbn [fst] in Ho. rewrite Hnone in Ho.
  assert (Hr : fst (render_one (m1, ws1) iv) !! propertyKey iv =
    Some [("type", JString (type_name (iv_type iv))); ("value", value_rhs iv JUndefined)]).
  { unfold render_one. cbv beta iota zeta. rewrite Ho. cbn [fst default].
    rewrite lookup_insert_eq. reflexivity. }
  destruct (render_one (m1, ws1) iv) as [m2 ws2]. cbn [fst] in Hr.
  destruct (fold_render_existing post m2 ws2 (propertyKey iv) _ Hr) as [p' [Hp' [_ Hv]]].
  rewrite Ef in Hp'. cbn [fst] in Hp'. rewrite Hp', Hv; [reflexivity|].
  apply value_rhs_defined.
Qed.

Lemma getInspectorValues_new_property_witness :
  getInspectorValues "scripts/player.ts"
    [mk_iv TBoolean "jump" None JUndefined; mk_iv TNumber "jump" None (num 3)] None =
    (Some [mk_widget InspectorBoolean "jump" "jump"; mk_widget InspectorNumber "jump" "jump"],
     Some (<["jump" := [("type", JString "boolean"); ("value", JBool false)]]> ∅)) /\
  (<["jump" := [("type", JString "boolean"); ("value", JBool false)]]> ∅ : properties)
    !! propertyKey (mk_iv TBoolean "jump" None JUndefined) =
    Some [("type", JString (type_name (iv_type (mk_iv TBoolean "jump" None JUndefined))));
          ("value", value_rhs (mk_iv TBoolean "jump" None JUndefined) JUndefined)].
Proof.
  assert (H : getInspectorValues "scripts/player.ts"
    [mk_iv TBoolean "jump" None JUndefined; mk_iv TNumber "jump" None (num 3)] None =
    (Some [mk_widget InspectorBoolean "jump" "jump"; mk_widget InspectorNumber "jump" "jump"],
     Some (<["jump" := [("type", JString "boolean"); ("value", JBool false)]]> ∅)))
    by reflexivity.
  split; [exact H|].
  exact (getInspectorValues_new_property _ _ [] [mk_iv TNumber "jump" None (num 3)] _ None
           _ _ H eq_refl eq_refl (fun iv' Hin => match Hin with end)).
Defined.

End ExportedValuesExtraClaims.

Module ScriptRefreshExtra.
Import ExportedValues ScriptRefresh ScriptRefreshHist ScriptRefreshWatch
  ScriptRefreshFacts.

(** With no script attached, every step keeps the inspector idle. *)
Lemma step_no_script (e : env) (c : comp) (a : action) :
  script_name c = "None"%string -> scriptWatcher c = None -> open_watchers c = [] ->
  refresing c = false -> inspectorValues c = [] ->
  Forall (fun ph => ph = (PDone, [EvForceUpdate])) (procs c) ->
  let c' := step e c a in
  script_name c' = "None"%string /\ scriptWatcher c' = None /\ open_watchers c' = [] /\
  refresing c' = false /\ inspectorValues c' = [] /\
  Forall (fun ph => ph = (PDone, [EvForceUpdate])) (procs c').
Proof.
  intros Hn Hw Ho Hr Hv Hp. destruct a as [|i|w ev|p|]; cbn [step].
  - unfold start_refresh. rewrite Hw, Ho. cbn. rewrite Hn. cbn.
    repeat split; auto. apply Forall_app. split; [exact Hp|]. constructor; auto.
  - unfold resume. destruct (procs c !! i) as [[p h]|] eqn:Ei;
      [|repeat split; assumption].
    pose proof (Forall_lookup_1 _ _ _ _ Hp Ei) as Hph. injection Hph as -> ->.
    cbn. repeat split; auto. apply Forall_insert; auto.
  - rewrite Ho. cbn. repeat split; assumption.
  - cbn. repeat split; assumption.
  - unfold componentWillUnmount, abstract_inspector_unmount. cbn. rewrite Hw. cbn.
    repeat split; assumption.
Qed.

(** With the script set to ["None"], no schedule of refreshes, file-system
    events, file creations and unmounting ever opens a watcher, shows the
    spinner, sets exported values or reads a file: every refresh only
    re-renders. *)
Theorem no_script_stays_idle (e : env) (present : list string) (sched : list action) :
  let c := run e (init "None" present) sched in
  scriptWatcher c = None /\ open_watchers c = [] /\ refresing c = false /\
  inspectorValues c = [] /\
  Forall (fun ph => ph = (PDone, [EvForceUpdate])) (procs c).
Proof.
  cbn zeta. unfold run.
  assert (H : let c := init "None" present in
    script_name c = "None"%string /\ scriptWatcher c = None /\ open_watchers c = [] /\
    refresing c = false /\ inspectorValues c = [] /\
    Forall (fun ph => ph = (PDone, [EvForceUpdate])) (procs c))
    by (cbn; repeat split; constructor).
  revert H. generalize (init "None" present) as c.
  induction sched as [|a sched IH]; intros c H; cbn zeta in H;
    destruct H as (Hn & Hw & Ho & Hr & Hv & Hp); cbn [fold_left].
  - auto.
  - apply IH. apply (step_no_script e c a Hn Hw Ho Hr Hv Hp).
Qed.

Lemma filter_polling (f : event -> bool) (js : string) (n : nat) :
  f (EvPathExists js false) = false -> f (EvWait 500) = false ->
  List.filter f (polling js n) = [].
Proof.
  intros H1 H2. induction n as [|n IH]; [reflexivity|].
  cbn. rewrite H1, H2. exact IH.
Qed.

Ltac count_tac :=
  unfold watch_count, pre;
  repeat rewrite ?List.filter_app, ?length_app, ?filter_polling by reflexivity;
  cbn; lia.

Lemma proc_ok_effects (e : env) (name : string) (ph : pc * list event) :
  proc_ok e name ph ->
  watch_count (snd ph) <= 1 /\ length (List.filter is_query (snd ph)) <= 1 /\
  Forall (fun ev => match ev with
                    | EvWatch js _ | EvGetInspectorValues js => compiled_path e name = Some js
                    | _ => True
                    end) (snd ph).
Proof.
  destruct ph as [[| |js|js|js|] h]; cbn [proc_ok snd]; intros H.
  - subst h. split; [count_tac|split; [count_tac|fa]].
  - subst h. split; [count_tac|split; [count_tac|unfold pre; fa]].
  - destruct H as [Ec [n ->]].
    split; [count_tac|split; [count_tac|unfold pre; fa]].
  - destruct H as [Ec [n ->]].
    split; [count_tac|split; [count_tac|unfold pre; fa]].
  - destruct H as [Ec [[n [w ->]] | ->]];
      (split; [count_tac|split; [count_tac|unfold pre; fa]]).
  - destruct H as [-> | [-> | [[js [n [Ec [-> | ->]]]] | [js [h0 [Ec [Hq ->]]]]]]];
      try (split; [count_tac|split; [count_tac|unfold pre; fa]]).
    destruct Hq as [[n [w ->]] | ->];
      (split; [count_tac|split; [count_tac|unfold pre; fa]]).
Qed.

(** Whatever the interleaving, each refresh calls [watch] at most once and
    queries the sandbox at most once, and both calls are on the compiled
    file of the attached script: the polling loop never opens a watcher. *)
Theorem refresh_watch_query_once (e : env) (name : string) (present : list string)
    (sched : list action) :
  Forall (fun ph =>
    watch_count (snd ph) <= 1 /\ length (List.filter is_query (snd ph)) <= 1 /\
    Forall (fun ev => match ev with
                      | EvWatch js _ | EvGetInspectorValues js =>
                          compiled_path e name = Some js
                      | _ => True
                      end) (snd ph))
    (procs (run e (init name present) sched)).
Proof.
  destruct (run_ok e name present sched) as [_ Hp].
  eapply Forall_impl; [exact Hp|]. intros ph. apply proc_ok_effects.
Qed.

(** Once unmounted, a step never remounts the inspector nor opens a
    watcher. *)
Lemma step_unmounted (e : env) (c : comp) (a : action) :
  isMounted c = false ->
  isMounted (step e c a) = false /\ incl (open_watchers (step e c a)) (open_watchers c).
Proof.
  intros Hm.
  assert (Hs : isMounted (start_refresh e c) = false /\
               incl (open_watchers (start_refresh e c)) (open_watchers c)).
  { unfold start_refresh.
    destruct (scriptWatcher c) as [w|]; cbn;
      destruct (String.eqb (script_name c) "None"); cbn;
      (split; [exact Hm|]); try apply incl_refl;
      intros x Hx; apply filter_In in Hx; apply Hx. }
  destruct a as [|i|w ev|p|]; cbn [step].
  - exact Hs.
  - unfold resume. destruct (procs c !! i) as [[p h]|]; [|split; [exact Hm|apply incl_refl]].
    destruct p as [| |js|js|js|]; cbn [step_proc];
      try (cbn; split; [exact Hm|apply incl_refl]).
    + destruct (compiled_path e (script_name c)); [|cbn; split; [exact Hm|apply incl_refl]].
      destruct (scriptWatcher c); [|rewrite Hm]; cbn; split; auto; apply incl_refl.
    + destruct (existsb _ _); [rewrite Hm|]; cbn; split; auto; apply incl_refl.
    + rewrite Hm. cbn. split; auto; apply incl_refl.
  - destruct (_ && _); [exact Hs|split; [exact Hm|apply incl_refl]].
  - cbn. split; [exact Hm|apply incl_refl].
  - unfold componentWillUnmount, abstract_inspector_unmount. cbn.
    destruct (scriptWatcher c); cbn; (split; [reflexivity|]); [|apply incl_refl].
    intros x Hx. apply filter_In in Hx. apply Hx.
Qed.

(** After [componentWillUnmount], no schedule remounts the inspector or
    opens a new watcher: refreshes still pending stop polling and never
    reach [watch]. The set of open watchers can only shrink. *)
Theorem unmounted_opens_no_watcher (e : env) (c : comp) (sched : list action) :
  isMounted c = false ->
  isMounted (run e c sched) = false /\
  incl (open_watchers (run e c sched)) (open_watchers c).
Proof.
  unfold run. revert c. induction sched as [|a sched IH]; intros c Hm; cbn [fold_left].
  - split; [exact Hm|apply incl_refl].
  - destruct (step_unmounted e c a Hm) as [Hm' Hi].
    destruct (IH _ Hm') as [Hm'' Hi']. split; [exact Hm''|].
    eapply incl_tran; eassumption.
Qed.

Lemma unmounted_opens_no_watcher_witness :
  isMounted (run e0 (init name0 []) [Refresh; Resume 0; Resume 0; Resume 0; Unmount])
    = false /\
  isMounted (run e0 (run e0 (init name0 []) [Refresh; Resume 0; Resume 0; Resume 0; Unmount])
               [Resume 0; CreateFile js0; Resume 0; Refresh; Resume 1; Resume 1]) = false /\
  incl (open_watchers (run e0 (run e0 (init name0 [])
                                  [Refresh; Resume 0; Resume 0; Resume 0; Unmount])
               [Resume 0; CreateFile js0; Resume 0; Refresh; Resume 1; Resume 1]))
       (open_watchers (run e0 (init name0 []) [Refresh; Resume 0; Resume 0; Resume 0; Unmount])).
Proof.
  assert (Hm : isMounted (run e0 (init name0 [])
                            [Refresh; Resume 0; Resume 0; Resume 0; Unmount]) = false)
    by reflexivity.
  split; [exact Hm|]. exact (unmounted_opens_no_watcher e0 _ _ Hm).
Defined.

End ScriptRefreshExtra.

Module DefaultSceneExtra.
Import DefaultScene DefaultSceneClaims.

(** [CreateLabel] only creates controls: every control that existed
    before the call is left exactly as it was, and the call allocates two
    new controls (rectangle and text) without lines, three (with the line)
    with lines; the returned rectangle is the first of them. *)
Theorem CreateLabel_fresh (g : gui) (mesh : nat) (str : string) (lines : bool)
    (width height : string) :
  let '(label, g') := CreateLabel mesh str lines width height g in
  label = gui_next g /\
  gui_next g' = gui_next g + (if lines then 3 else 2) /\
  forall j, j < gui_next g -> gui_heap g' j = gui_heap g j.
Proof.
  destruct g as [ctrls h n].
  destruct lines;
    unfold CreateLabel, bind, ret, new_control, set_style, set_text, set_color,
      set_dash, add_child, gui_addControl, linkWithMesh, set_connectedControl,
      set_zIndex, modify_control; cbn -[Nat.eqb]; solve_ids;
    repeat (match goal with |- context [if ?b then _ else _] => destruct b end;
            cbn -[Nat.eqb]; solve_ids);
    (split; [reflexivity|split; [lia|]]);
    intros j Hj; repeat rewrite update_at_ne by lia; reflexivity.
Qed.

End DefaultSceneExtra.

Module ScriptPathExtra.
Import ScriptRefresh.

Lemma append_cons (x : ascii) (a b : string) :
  String.append (String x a) b = String x (String.append a b).
Proof. reflexivity. Qed.

Lemma str_app_assoc (a b c : string) :
  String.append (String.append a b) c = String.append a (String.append b c).
Proof. induction a as [|x a IH]; [reflexivity|]. rewrite !append_cons, IH. reflexivity. Qed.

Lemma lastIndexOf_from_prefix (i : nat) (s pat : string) :
  String.prefix pat s = true -> Js.lastIndexOf_from i s pat <> None.
Proof.
  intros H. destruct s as [|x s]; cbn [Js.lastIndexOf_from].
  - rewrite H. discriminate.
  - destruct (Js.lastIndexOf_from (S i) s pat); [discriminate|].
    rewrite H. discriminate.
Qed.

(** [lastIndexOf] finds every pattern that occurs in the string. *)
Lemma lastIndexOf_from_found (pre pat post : string) (i : nat) :
  Js.lastIndexOf_from i (String.append pre (String.append pat post)) pat <> None.
Proof.
  revert i. induction pre as [|x pre IH]; intros i.
  - apply lastIndexOf_from_prefix. exact (JsFacts.prefix_app pat post).
  - rewrite append_cons. cbn [Js.lastIndexOf_from].
    destruct (Js.lastIndexOf_from (S i) _ pat) eqn:E; [discriminate|].
    exfalso. exact (IH (S i) E).
Qed.

Lemma lastIndexOf_from_bounds (i : nat) (s pat : string) (j : nat) :
  Js.lastIndexOf_from i s pat = Some j -> i <= j <= i + String.length s.
Proof.
  revert i. induction s as [|x s IH]; intros i; cbn [Js.lastIndexOf_from String.length].
  - destruct (String.prefix pat ""); intros H; [injection H as <-; lia|discriminate H].
  - destruct (Js.lastIndexOf_from (S i) s pat) as [k|] eqn:E.
    + intros H. injection H as <-. apply IH in E. lia.
    + destruct (String.prefix pat (String x s)); intros H;
        [injection H as <-; lia|discriminate H].
Qed.

Lemma substring_split (b : string) (i : nat) :
  i <= String.length b ->
  b = String.append (String.substring 0 i b)
        (String.substring i (String.length b - i) b).
Proof.
  revert i. induction b as [|x b IH]; intros [|i] Hi.
  - reflexivity.
  - cbn in Hi. lia.
  - transitivity (String.substring 0 (String.length (String x b)) (String x b));
      [symmetry; apply JsFacts.substring_all|reflexivity].
  - cbn in Hi.
    change (String x b = String x (String.append (String.substring 0 i b)
                                     (String.substring i (String.length b - i) b))).
    rewrite <- IH by lia. reflexivity.
Qed.

(** The first segment of a path is a prefix of it, and every segment
    occurs in it. *)
Lemma split_sep_head (s x : string) (r : list string) :
  Path.split_sep s = x :: r -> exists post, s = String.append x post.
Proof.
  revert x r. induction s as [|c s IH]; intros x r; cbn.
  - intros H. injection H as <- _. exists EmptyString. reflexivity.
  - destruct (Ascii.eqb c Path.slash).
    + intros H. injection H as <- _. exists (String c s). reflexivity.
    + destruct (Path.split_sep s) as [|y r'] eqn:E; intros H; injection H as <- _.
      * exists s. reflexivity.
      * destruct (IH y r' eq_refl) as [post ->]. exists post. reflexivity.
Qed.

Lemma split_sep_infix (s x : string) :
  In x (Path.split_sep s) ->
  exists pre post, s = String.append pre (String.append x post).
Proof.
  revert x. induction s as [|c s IH]; intros x; cbn.
  - intros [<-|[]]. exists EmptyString, EmptyString. reflexivity.
  - destruct (Ascii.eqb c Path.slash).
    + intros [<-|Hin].
      * exists EmptyString, (String c s). reflexivity.
      * destruct (IH x Hin) as [pre [post ->]]. exists (String c pre), post. reflexivity.
    + destruct (Path.split_sep s) as [|y r] eqn:E; intros Hin.
      * destruct Hin as [<-|[]]. exists EmptyString, s. reflexivity.
      * destruct Hin as [<-|Hin].
        -- destruct (split_sep_head s y r E) as [post ->].
           exists EmptyString, post. reflexivity.
        -- destruct (IH x (or_intror Hin)) as [pre [post ->]].
           exists (String c pre), post. reflexivity.
Qed.

Lemma basename_infix (p : string) :
  exists pre post, p = String.append pre (String.append (Path.basename p) post).
Proof.
  unfold Path.basename.
  destruct (last (List.filter (fun a => negb (String.eqb a "")) (Path.split_sep p)))
    as [b|] eqn:E; cbn [default].
  - apply last_Some_elem_of, list_elem_of_In in E. apply filter_In in E as [E _].
    exact (split_sep_infix p b E).
  - exists EmptyString, p. reflexivity.
Qed.

Lemma extname_infix (p : string) :
  exists pre post, p = String.append pre (String.append (Path.extname p) post).
Proof.
  destruct (basename_infix p) as [pre [post Hp]].
  unfold Path.extname. set (b := Path.basename p) in *.
  destruct (String.eqb b "..");
    [exists EmptyString, p; reflexivity|].
  destruct (Js.lastIndexOf b ".") as [[|i]|] eqn:E;
    try (exists EmptyString, p; reflexivity).
  apply lastIndexOf_from_bounds in E.
  pose proof (substring_split b (S i) ltac:(lia)) as Hb.
  exists (String.append pre (String.substring 0 (S i) b)), post.
  rewrite Hp at 1. rewrite Hb at 1. rewrite !str_app_assoc. reflexivity.
Qed.

(** The compiled file of a script is always found: [name] contains its
    own [extname(name)] (possibly [""], then found at the end), so
    [name.lastIndexOf(extname(name))] is never -1 and the early return of
    [_updateScriptVisibleProperties] on [extensionIndex === -1] is never
    taken. *)
Theorem compiled_path_defined (e : env) (name : string) :
  compiled_path e name <> None.
Proof.
  unfold compiled_path, Js.lastIndexOf.
  destruct (extname_infix name) as [pre [post Hn]].
  destruct (Js.lastIndexOf_from 0 name (Path.extname name)) eqn:E; [discriminate|].
  exfalso. rewrite Hn in E at 1. exact (lastIndexOf_from_found pre _ post 0 E).
Qed.

End ScriptPathExtra.
